(** * AR Space Invaders: the game-state engine

    A shallow embedding of the engine of the repository: the two variants of
    [AlienGrid] (boundary-based and cycle-counted), [ShootingSystem], [HUD]
    and the frame loop of [GameManager], followed by the properties of the
    specification that were checked against them.

    Conventions of the embedding.
    - JavaScript numbers that carry positions, speeds and elapsed seconds are
      exact rationals ([Q]); rounding of binary floating point is outside the
      model.  Numbers that only ever hold integers (timestamps of
      [Date.now()], points, counters, the direction sign) are [Z] or [nat].
    - [Date.now()] and [clock.getDelta()] are inputs of the calls that read
      them; [setTimeout] callbacks are entries of an explicit timer queue.
    - The scene graph, meshes, materials, sounds and DOM nodes are
      presentation and are left out; a call that only touches them is
      dropped from the embedded function, and said so at that function.
    - An object shared by reference (an alien in the grid that also appears
      in a hit list) is named by its place in the grid, [(row, col)]. *)

From Stdlib Require Import ZArith QArith Qabs Qminmax Qround Lqa Lia Bool List.
From stdpp Require Import base option list.
Import ListNotations.

Local Open Scope Z_scope.

(** ** Numbers *)

(** [a < b] on rationals, as a boolean. *)
Definition Qltb (a b : Q) : bool := negb (Qle_bool b a).

(** ** THREE.Vector3 *)

Module Vector3.
Record t : Type := mk { x : Q; y : Q; z : Q }.

Definition add (a b : t) : t :=
  mk (x a + x b) (y a + y b) (z a + z b).

Definition sub (a b : t) : t :=
  mk (x a - x b) (y a - y b) (z a - z b).

Definition multiplyScalar (a : t) (s : Q) : t :=
  mk (x a * s) (y a * s) (z a * s).

Definition distanceToSquared (a b : t) : Q :=
  let dx := (x a - x b)%Q in
  let dy := (y a - y b)%Q in
  let dz := (z a - z b)%Q in
  (dx * dx + dy * dy + dz * dz)%Q.

(** [a.distanceTo(b) < r] for a positive radius [r].  three.js computes the
    distance as the square root of [distanceToSquared]; the comparison with a
    positive radius is the comparison of the squares. *)
Definition closerThan (a b : t) (r : Q) : bool :=
  Qltb (distanceToSquared a b) (r * r).

(** Componentwise equality of rationals. *)
Definition equiv (a b : t) : Prop :=
  (x a == x b)%Q /\ (y a == y b)%Q /\ (z a == z b)%Q.
End Vector3.

(** A reference to an alien object: its row and column in [this.aliens]. *)
Definition AlienRef : Type := (nat * nat)%type.

(** What [ShootingSystem.update] reads of a target object: which object it is,
    its [userData.isAlive] and the result of [getWorldPosition]. *)
Record Target : Type := mkTarget {
  target_ref : AlienRef;
  target_isAlive : bool;
  target_worldPosition : Vector3.t
}.

(** ** ShootingSystem (src/unnamed/part_004) *)

Module ShootingSystem.

(** Configuration set once in the constructor and never assigned again. *)
Definition cooldown : Z := 200.
Definition projectileSpeed : Q := 1 # 2.
Definition projectileLifetime : Z := 2000.
(** [const hitRadius = 0.5] of [update]. *)
Definition hitRadius : Q := 1 # 2.

(** A projectile mesh: its position and its [userData]. *)
Record Projectile : Type := mkProjectile {
  position : Vector3.t;
  direction : Vector3.t;
  createdAt : Z;
  isActive : bool
}.

(** What [shoot] reads of the camera: its position and the vector
    [(0, 0, -1)] turned by the camera's quaternion. *)
Record Camera : Type := mkCamera {
  camera_position : Vector3.t;
  camera_forward : Vector3.t
}.

Record t : Type := mk {
  lastShotTime : Z;
  projectiles : list Projectile
}.

(** The constructor. *)
Definition new : t := {| lastShotTime := 0; projectiles := [] |}.

(** [shoot()], with the value of [Date.now()].  The crosshair feedback is
    presentation. *)
Definition shoot (now : Z) (camera : Camera) (s : t) : bool * t :=
  if now - lastShotTime s <? cooldown then (false, s)
  else
    let direction := camera_forward camera in
    let p0 := Vector3.add (camera_position camera)
                          (Vector3.multiplyScalar direction (1 # 2)) in
    let p1 := Vector3.mk (Vector3.x p0) (Vector3.y p0 - (2 # 10)) (Vector3.z p0) in
    let projectile :=
      {| position := p1; direction := direction;
         createdAt := now; isActive := true |} in
    (true, {| lastShotTime := now;
              projectiles := projectiles s ++ [projectile] |}).

(** [projectile.position.add(direction.clone().multiplyScalar(speed))]. *)
Definition advance (p : Projectile) : Projectile :=
  {| position := Vector3.add (position p)
                   (Vector3.multiplyScalar (direction p) projectileSpeed);
     direction := direction p;
     createdAt := createdAt p;
     isActive := isActive p |}.

Definition deactivate (p : Projectile) : Projectile :=
  {| position := position p; direction := direction p;
     createdAt := createdAt p; isActive := false |}.

(** The test of the inner loop of [update] for one target. *)
Definition collides (p : Projectile) (target : Target) : bool :=
  target_isAlive target
  && Vector3.closerThan (position p) (target_worldPosition target) hitRadius.

(** The inner [for (const target of targets)] loop: the first target that
    passes the test, where the loop breaks. *)
Definition firstHit (p : Projectile) (targets : list Target) : option Target :=
  List.find (collides p) targets.

(** [removeProjectile(index)]: [splice(index, 1)] when the index holds a
    projectile. *)
Definition removeProjectile (index : nat) (ps : list Projectile) : list Projectile :=
  delete index ps.

(** The outer loop of [update], [for (let i = length - 1; i >= 0; i--)]:
    [update_loop k] runs the iterations [i = k - 1] down to [i = 0].
    The index is always below the length; the branch for a missing element
    is never taken. *)
Fixpoint update_loop (k : nat) (now : Z) (targets : list Target)
         (ps : list Projectile) (hits : list Target)
  : list Projectile * list Target :=
  match k with
  | O => (ps, hits)
  | S i =>
      match ps !! i with
      | None => update_loop i now targets ps hits
      | Some projectile =>
          if negb (isActive projectile) then update_loop i now targets ps hits
          else
            let moved := advance projectile in
            let ps1 := <[i := moved]> ps in
            if projectileLifetime <? now - createdAt moved then
              update_loop i now targets (removeProjectile i ps1) hits
            else
              match firstHit moved targets with
              | Some target =>
                  let ps2 := <[i := deactivate moved]> ps1 in
                  update_loop i now targets (removeProjectile i ps2)
                              (hits ++ [target])
              | None => update_loop i now targets ps1 hits
              end
      end
  end.

(** [update(deltaTime, targets)], with the value of [Date.now()]. *)
Definition update (deltaTime : Q) (now : Z) (targets : list Target) (s : t)
  : list Target * t :=
  let '(ps, hits) :=
    update_loop (length (projectiles s)) now targets (projectiles s) [] in
  (hits, {| lastShotTime := lastShotTime s; projectiles := ps |}).

(** [clear()]: every projectile is removed, from the last to the first. *)
Definition clear (s : t) : t :=
  {| lastShotTime := lastShotTime s;
     projectiles :=
       fold_left (fun ps i => removeProjectile i ps)
                 (rev (seq 0 (length (projectiles s)))) (projectiles s) |}.

End ShootingSystem.

(** ** Platform functions *)

(** [Math.sin], read by the idle animation of the aliens. *)
Class Math : Type := { Math_sin : Q -> Q }.

(** ** Aliens (src/src/entities/AlienFactory.js) *)

Module Alien.
(** An alien object: the part of its transform the engine reads or writes
    (position inside the wave's group, rotation about z, visibility) and
    its [userData]. *)
Record t : Type := mk {
  position : Vector3.t;
  rotation_z : Q;
  visible : bool;
  type : Z;
  points : Z;
  isAlive : bool;
  wiggleOffset : Q;
  gridRow : nat;
  gridCol : nat;
  originalY : Q
}.

(** [createAlien(type, scale)]; [phase] is the value of
    [Math.random() * Math.PI * 2] drawn by the call.  The scale only sizes
    the voxels.  [gridRow], [gridCol] and [originalY] are assigned by
    [spawnWave] right after the call. *)
Definition createAlien (type : Z) (phase : Q) : t :=
  {| position := Vector3.mk 0 0 0; rotation_z := 0; visible := true;
     type := type; points := type * 10; isAlive := true;
     wiggleOffset := phase;
     gridRow := 0; gridCol := 0; originalY := 0 |}.

Definition set_position (p : Vector3.t) (a : t) : t :=
  mk p (rotation_z a) (visible a) (type a) (points a) (isAlive a)
     (wiggleOffset a) (gridRow a) (gridCol a) (originalY a).

Definition set_grid (row col : nat) (oy : Q) (a : t) : t :=
  mk (position a) (rotation_z a) (visible a) (type a) (points a) (isAlive a)
     (wiggleOffset a) row col oy.

Definition set_originalY (oy : Q) (a : t) : t :=
  mk (position a) (rotation_z a) (visible a) (type a) (points a) (isAlive a)
     (wiggleOffset a) (gridRow a) (gridCol a) oy.

(** [alien.userData.isAlive = false; alien.visible = false]. *)
Definition kill (a : t) : t :=
  mk (position a) (rotation_z a) false (type a) (points a) false
     (wiggleOffset a) (gridRow a) (gridCol a) (originalY a).

(** The idle animation of one live alien at animation time [time], with the
    amplitude [bounce] of the vertical oscillation. *)
Definition wiggle `{Math} (time wiggleAmount bounce : Q) (a : t) : t :=
  if negb (isAlive a) then a
  else
    let rz := (Math_sin (time + wiggleOffset a) * wiggleAmount)%Q in
    let b := (Math_sin (time * 2 + wiggleOffset a) * bounce)%Q in
    mk (Vector3.mk (Vector3.x (position a)) (originalY a + b)
                   (Vector3.z (position a)))
       rz (visible a) (type a) (points a) (isAlive a)
       (wiggleOffset a) (gridRow a) (gridCol a) (originalY a).

(** [alien.getWorldPosition]: the alien sits in a group that is only
    translated. *)
Definition worldPosition (group : option Vector3.t) (a : t) : Vector3.t :=
  match group with
  | Some gp => Vector3.add gp (position a)
  | None => position a
  end.

Definition asTarget (group : option Vector3.t) (a : t) : Target :=
  {| target_ref := (gridRow a, gridCol a);
     target_isAlive := isAlive a;
     target_worldPosition := worldPosition group a |}.
End Alien.

(** The rows of [this.aliens], and the operations both variants of the grid
    share word for word. *)
Module Rows.
Definition t : Type := list (list Alien.t).

(** The object a reference denotes. *)
Definition at_ref (r : AlienRef) (rows : t) : option Alien.t :=
  match rows !! (fst r) with
  | Some row => row !! (snd r)
  | None => None
  end.

(** In-place update of the object a reference denotes. *)
Definition set_ref (r : AlienRef) (a : Alien.t) (rows : t) : t :=
  match rows !! (fst r) with
  | Some row => <[fst r := <[snd r := a]> row]> rows
  | None => rows
  end.

(** [getAliveAliens()]: the live aliens, row by row. *)
Definition getAliveAliens (rows : t) : list Alien.t :=
  List.filter Alien.isAlive (List.concat rows).

(** [getAliveCount()]. *)
Definition getAliveCount (rows : t) : nat := length (getAliveAliens rows).

(** The row-based tier of [spawnWave]. *)
Definition alienType (row : nat) : Z :=
  if (row =? 0)%nat then 3 else if (row <=? 2)%nat then 2 else 1.

(** The nested creation loop of [spawnWave]. *)
Definition build (nrows ncols : nat) (offsetX offsetY spacingX spacingY startZ : Q)
           (phase : nat -> nat -> Q) : t :=
  List.map (fun row =>
    List.map (fun col =>
      let px := (offsetX + inject_Z (Z.of_nat col) * spacingX)%Q in
      let py := (offsetY - inject_Z (Z.of_nat row) * spacingY)%Q in
      Alien.set_grid row col py
        (Alien.set_position (Vector3.mk px py startZ)
           (Alien.createAlien (alienType row) (phase row col))))
      (seq 0 ncols))
    (seq 0 nrows).

(** [Math.min] folded over the live aliens, starting from [Infinity]
    ([None]). *)
Definition minOver (f : Alien.t -> Q) (rows : t) : option Q :=
  fold_left (fun acc a =>
               Some (match acc with None => f a | Some m => Qmin m (f a) end))
            (getAliveAliens rows) None.

(** [Math.max] folded over the live aliens, starting from [-Infinity]
    ([None]). *)
Definition maxOver (f : Alien.t -> Q) (rows : t) : option Q :=
  fold_left (fun acc a =>
               Some (match acc with None => f a | Some m => Qmax m (f a) end))
            (getAliveAliens rows) None.
End Rows.

(** ** AlienGrid, boundary-based variant (src/unnamed/part_002) *)

Module BoundaryGrid.

(** [this.config] and the constants of the constructor that are never
    assigned again. *)
Definition rows : nat := 5.
Definition cols : nat := 11.
Definition spacingX : Q := 12 # 10.
Definition spacingY : Q := 8 # 10.
Definition startY : Q := 3.
Definition startZ : Q := -8.
Definition dropDistance : Q := 3 # 10.
Definition baseSpeed : Q := 15 # 1000.
Definition boundaryX : Q := 5.
Definition wiggleAmount : Q := 1 # 10.

(** The mutable state of the grid.  [group] is the position of the wave's
    [THREE.Group], [None] for [null]. *)
Record t : Type := mk {
  aliens : Rows.t;
  direction : Z;
  moveSpeed : Q;
  speedMultiplier : Q;
  wiggleTime : Q;
  group : option Vector3.t
}.

(** The constructor. *)
Definition new : t :=
  {| aliens := []; direction := 1; moveSpeed := 15 # 1000;
     speedMultiplier := 1; wiggleTime := 0; group := None |}.

(** [clear()]. *)
Definition clear (g : t) : t :=
  {| aliens := []; direction := 1; moveSpeed := baseSpeed;
     speedMultiplier := speedMultiplier g; wiggleTime := wiggleTime g;
     group := None |}.

(** [spawnWave(wave)]; [phase row col] is the animation phase drawn for the
    alien created at that place. *)
Definition spawnWave (phase : nat -> nat -> Q) (wave : Z) (g : t) : t :=
  let g0 := clear g in
  let multiplier := (1 + (inject_Z wave - 1) * (15 # 100))%Q in
  let totalWidth := (inject_Z (Z.of_nat cols - 1) * spacingX)%Q in
  let offsetX := (- totalWidth / 2)%Q in
  let offsetY := startY in
  {| aliens := aliens g0 ++
               Rows.build rows cols offsetX offsetY spacingX spacingY startZ phase;
     direction := direction g0;
     moveSpeed := (baseSpeed * multiplier)%Q;
     speedMultiplier := multiplier;
     wiggleTime := wiggleTime g0;
     group := Some (Vector3.mk 0 0 0) |}.

Definition getAliveAliens (g : t) : list Alien.t := Rows.getAliveAliens (aliens g).
Definition getAliveCount (g : t) : nat := length (getAliveAliens g).
Definition isWaveCleared (g : t) : bool := (getAliveCount g =? 0)%nat.

Definition worldX (g : t) (a : Alien.t) : Q :=
  Vector3.x (Alien.worldPosition (group g) a).
Definition worldY (g : t) (a : Alien.t) : Q :=
  Vector3.y (Alien.worldPosition (group g) a).

(** The edge test of [update]: [needsToChangeDirection]. *)
Definition needsToChangeDirection (g : t) : bool :=
  let leftMost := Rows.minOver (worldX g) (aliens g) in
  let rightMost := Rows.maxOver (worldX g) (aliens g) in
  (match rightMost with
   | Some r => Qle_bool boundaryX r
   | None => false
   end && (direction g =? 1))
  || (match leftMost with
      | Some l => Qle_bool l (- boundaryX)
      | None => false
      end && (direction g =? -1)).

(** The ground test of [update]: [hitGround]. *)
Definition hitGround (g : t) : bool :=
  match Rows.minOver (worldY g) (aliens g) with
  | Some lowestY => Qle_bool lowestY (-3)
  | None => false
  end.

(** [update(deltaTime)]: the result and the state after the call. *)
Definition update `{Math} (deltaTime : Q) (g : t) : bool * t :=
  match group g with
  | None => (false, g)
  | Some gp =>
      if (length (aliens g) =? 0)%nat then (false, g)
      else
        let time := (wiggleTime g + deltaTime * 3)%Q in
        let turn := needsToChangeDirection g in
        let ground := hitGround g in
        let direction' := if turn then direction g * -1 else direction g in
        let gp' :=
          if turn
          then Vector3.mk (Vector3.x gp) (Vector3.y gp - dropDistance) (Vector3.z gp)
          else Vector3.mk (Vector3.x gp + inject_Z (direction g) * moveSpeed g)
                          (Vector3.y gp) (Vector3.z gp) in
        let moveSpeed' :=
          if turn then (moveSpeed g * (102 # 100))%Q else moveSpeed g in
        (ground,
         {| aliens :=
              List.map (List.map (Alien.wiggle time wiggleAmount (2 # 100)))
                       (aliens g);
            direction := direction';
            moveSpeed := moveSpeed';
            speedMultiplier := speedMultiplier g;
            wiggleTime := time;
            group := Some gp' |})
  end.

(** [destroyAlien(alien)]: the points and the state after the call; [None]
    when the reference denotes no object of the grid, which no call of the
    program passes.  The explosion effect is presentation. *)
Definition destroyAlien (alien : AlienRef) (g : t) : option (Z * t) :=
  match Rows.at_ref alien (aliens g) with
  | None => None
  | Some a =>
      if negb (Alien.isAlive a) then Some (0, g)
      else
        let aliens' := Rows.set_ref alien (Alien.kill a) (aliens g) in
        let aliveCount := Rows.getAliveCount aliens' in
        let moveSpeed' :=
          if (0 <? aliveCount)%nat
          then (baseSpeed * speedMultiplier g
                * (1 + (55 - inject_Z (Z.of_nat aliveCount)) * (2 # 100)))%Q
          else moveSpeed g in
        Some (Alien.points a,
              {| aliens := aliens'; direction := direction g;
                 moveSpeed := moveSpeed';
                 speedMultiplier := speedMultiplier g;
                 wiggleTime := wiggleTime g; group := group g |})
  end.

(** The live aliens as [ShootingSystem.update] sees them. *)
Definition targets (g : t) : list Target :=
  List.map (Alien.asTarget (group g)) (getAliveAliens g).

End BoundaryGrid.

(** ** AlienGrid, cycle-counted variant (src/unnamed/part_003) *)

Module CycleGrid.

Definition rows : nat := 5.
Definition cols : nat := 11.
Definition spacingX : Q := 24 # 10.
Definition spacingY : Q := 16 # 10.
Definition startY : Q := 6.
Definition startZ : Q := -15.
Definition dropDistance : Q := 1.
Definition baseSpeed : Q := 2 # 100.
Definition horizontalLimit : Q := 10.
Definition maxDrops : nat := 10.
Definition wiggleAmount : Q := 1 # 10.

Record t : Type := mk {
  aliens : Rows.t;
  direction : Z;
  moveSpeed : Q;
  speedMultiplier : Q;
  currentHorizontalPosition : Q;
  dropCount : nat;
  wiggleTime : Q;
  group : option Vector3.t
}.

(** The constructor. *)
Definition new : t :=
  {| aliens := []; direction := -1; moveSpeed := 2 # 100;
     speedMultiplier := 1; currentHorizontalPosition := 0; dropCount := 0;
     wiggleTime := 0; group := None |}.

(** [clear()]. *)
Definition clear (g : t) : t :=
  {| aliens := []; direction := -1; moveSpeed := baseSpeed;
     speedMultiplier := speedMultiplier g;
     currentHorizontalPosition := 0; dropCount := 0;
     wiggleTime := wiggleTime g; group := None |}.

(** [spawnWave(wave)]. *)
Definition spawnWave (phase : nat -> nat -> Q) (wave : Z) (g : t) : t :=
  let g0 := clear g in
  let multiplier := (1 + (inject_Z wave - 1) * (15 # 100))%Q in
  let totalWidth := (inject_Z (Z.of_nat cols - 1) * spacingX)%Q in
  let offsetX := (- totalWidth / 2)%Q in
  let offsetY := startY in
  {| aliens := aliens g0 ++
               Rows.build rows cols offsetX offsetY spacingX spacingY startZ phase;
     direction := direction g0;
     moveSpeed := (baseSpeed * multiplier)%Q;
     speedMultiplier := multiplier;
     currentHorizontalPosition := currentHorizontalPosition g0;
     dropCount := dropCount g0;
     wiggleTime := wiggleTime g0;
     group := Some (Vector3.mk 0 0 0) |}.

Definition getAliveAliens (g : t) : list Alien.t := Rows.getAliveAliens (aliens g).
Definition getAliveCount (g : t) : nat := length (getAliveAliens g).
Definition isWaveCleared (g : t) : bool := (getAliveCount g =? 0)%nat.

(** The horizontal step of one call of [update]. *)
Definition movement (g : t) : Q := (inject_Z (direction g) * moveSpeed g)%Q.

(** The limit test of [update], on the travel after this call's step. *)
Definition reachedLimit (g : t) : bool :=
  Qle_bool horizontalLimit (Qabs (currentHorizontalPosition g + movement g)).

(** The descent of a live alien's [originalY]. *)
Definition lower (a : Alien.t) : Alien.t :=
  if Alien.isAlive a
  then Alien.set_originalY (Alien.originalY a - dropDistance) a
  else a.

(** [update(deltaTime)]: the result and the state after the call. *)
Definition update `{Math} (deltaTime : Q) (g : t) : bool * t :=
  match group g with
  | None => (false, g)
  | Some gp =>
      if (length (aliens g) =? 0)%nat then (false, g)
      else
        let time := (wiggleTime g + deltaTime * 3)%Q in
        if (maxDrops <=? dropCount g)%nat then
          (true,
           {| aliens := aliens g; direction := direction g;
              moveSpeed := moveSpeed g; speedMultiplier := speedMultiplier g;
              currentHorizontalPosition := currentHorizontalPosition g;
              dropCount := dropCount g; wiggleTime := time;
              group := group g |})
        else
          let turn := reachedLimit g in
          let gx := (Vector3.x gp + movement g)%Q in
          let gp' :=
            if turn
            then Vector3.mk gx (Vector3.y gp - dropDistance) (Vector3.z gp)
            else Vector3.mk gx (Vector3.y gp) (Vector3.z gp) in
          let aliens1 :=
            if turn then List.map (List.map lower) (aliens g) else aliens g in
          (false,
           {| aliens :=
                List.map (List.map (Alien.wiggle time wiggleAmount (5 # 100)))
                         aliens1;
              direction := if turn then direction g * -1 else direction g;
              moveSpeed := moveSpeed g;
              speedMultiplier := speedMultiplier g;
              currentHorizontalPosition :=
                if turn then 0
                else (currentHorizontalPosition g + movement g)%Q;
              dropCount := if turn then S (dropCount g) else dropCount g;
              wiggleTime := time;
              group := Some gp' |})
  end.

(** [destroyAlien(alien)], as in the boundary-based variant. *)
Definition destroyAlien (alien : AlienRef) (g : t) : option (Z * t) :=
  match Rows.at_ref alien (aliens g) with
  | None => None
  | Some a =>
      if negb (Alien.isAlive a) then Some (0, g)
      else
        let aliens' := Rows.set_ref alien (Alien.kill a) (aliens g) in
        let aliveCount := Rows.getAliveCount aliens' in
        let moveSpeed' :=
          if (0 <? aliveCount)%nat
          then (baseSpeed * speedMultiplier g
                * (1 + (55 - inject_Z (Z.of_nat aliveCount)) * (2 # 100)))%Q
          else moveSpeed g in
        Some (Alien.points a,
              {| aliens := aliens'; direction := direction g;
                 moveSpeed := moveSpeed';
                 speedMultiplier := speedMultiplier g;
                 currentHorizontalPosition := currentHorizontalPosition g;
                 dropCount := dropCount g;
                 wiggleTime := wiggleTime g; group := group g |})
  end.

Definition targets (g : t) : list Target :=
  List.map (Alien.asTarget (group g)) (getAliveAliens g).

End CycleGrid.

(** ** HUD (src/src/ui/HUD.js) *)

Module HUD.

Definition maxLives : Z := 3.
Definition comboTimeout : Z := 2000.

(** The state the engine reads back.  [comboTimer] is the pending
    [setTimeout] of [incrementCombo], by the time it is due; the source keeps
    the id of a timer that has fired, and clearing such an id does nothing.
    The animated [displayedScore] and the DOM are presentation. *)
Record t : Type := mk {
  targetScore : Z;
  currentWave : Z;
  currentLives : Z;
  comboCount : Z;
  comboTimer : option Z
}.

(** The constructor. *)
Definition new : t :=
  {| targetScore := 0; currentWave := 1; currentLives := 3;
     comboCount := 0; comboTimer := None |}.

(** [incrementCombo()], called at time [now]: the previous timer is
    cleared and a new one is set. *)
Definition incrementCombo (now : Z) (h : t) : t :=
  {| targetScore := targetScore h; currentWave := currentWave h;
     currentLives := currentLives h;
     comboCount := comboCount h + 1;
     comboTimer := Some (now + comboTimeout) |}.

(** [Math.min(this.comboCount, 5)]. *)
Definition multiplier (h : t) : Z := Z.min (comboCount h) 5.

(** [points * Math.max(1, multiplier)]. *)
Definition finalPoints (points : Z) (h : t) : Z :=
  points * Z.max 1 (multiplier h).

(** [addScore(points, screenX, screenY)], called at time [now]. *)
Definition addScore (now : Z) (points : Z) (h : t) : t :=
  incrementCombo now
    {| targetScore := targetScore h + finalPoints points h;
       currentWave := currentWave h; currentLives := currentLives h;
       comboCount := comboCount h; comboTimer := comboTimer h |}.

(** [resetCombo()]. *)
Definition resetCombo (h : t) : t :=
  {| targetScore := targetScore h; currentWave := currentWave h;
     currentLives := currentLives h; comboCount := 0;
     comboTimer := comboTimer h |}.

(** The event loop at time [now]: the pending combo timer runs its callback
    once it is due, and not before. *)
Definition timerTick (now : Z) (h : t) : t :=
  match comboTimer h with
  | Some due =>
      if due <=? now then
        let h' := resetCombo h in
        {| targetScore := targetScore h'; currentWave := currentWave h';
           currentLives := currentLives h'; comboCount := comboCount h';
           comboTimer := None |}
      else h
  | None => h
  end.

(** [setWave(wave)]. *)
Definition setWave (wave : Z) (h : t) : t :=
  {| targetScore := targetScore h; currentWave := wave;
     currentLives := currentLives h; comboCount := comboCount h;
     comboTimer := comboTimer h |}.

(** [loseLife()]: the remaining lives and the state after the call. *)
Definition loseLife (h : t) : Z * t :=
  if 0 <? currentLives h then
    (currentLives h - 1,
     {| targetScore := targetScore h; currentWave := currentWave h;
        currentLives := currentLives h - 1; comboCount := comboCount h;
        comboTimer := comboTimer h |})
  else (currentLives h, h).

(** [reset()]. *)
Definition reset (h : t) : t :=
  {| targetScore := 0; currentWave := 1; currentLives := maxLives;
     comboCount := 0; comboTimer := comboTimer h |}.

Definition getScore (h : t) : Z := targetScore h.

End HUD.

(** ** The grid as GameManager uses it *)

(** The methods of [AlienGrid] that [GameManager] calls; both variants
    provide them. *)
Class AlienGridOps (G : Type) : Type := {
  grid_new : G;
  grid_spawnWave : (nat -> nat -> Q) -> Z -> G -> G;
  grid_update : Q -> G -> bool * G;
  grid_targets : G -> list Target;
  grid_isWaveCleared : G -> bool;
  grid_destroyAlien : AlienRef -> G -> option (Z * G);
  grid_clear : G -> G
}.

#[export] Instance BoundaryGridOps `{Math} : AlienGridOps BoundaryGrid.t := {|
  grid_new := BoundaryGrid.new;
  grid_spawnWave := BoundaryGrid.spawnWave;
  grid_update := BoundaryGrid.update;
  grid_targets := BoundaryGrid.targets;
  grid_isWaveCleared := BoundaryGrid.isWaveCleared;
  grid_destroyAlien := BoundaryGrid.destroyAlien;
  grid_clear := BoundaryGrid.clear
|}.

#[export] Instance CycleGridOps `{Math} : AlienGridOps CycleGrid.t := {|
  grid_new := CycleGrid.new;
  grid_spawnWave := CycleGrid.spawnWave;
  grid_update := CycleGrid.update;
  grid_targets := CycleGrid.targets;
  grid_isWaveCleared := CycleGrid.isWaveCleared;
  grid_destroyAlien := CycleGrid.destroyAlien;
  grid_clear := CycleGrid.clear
|}.

(** ** GameManager (src/src/game/GameManager.js) *)

Module GameManager.
Section WithGrid.
Context {G : Type} `{AlienGridOps G}.

(** [this.state], the systems the loop drives, and the queue of pending
    [setTimeout] callbacks of [onWaveComplete], each by the time it is
    due. *)
Record t : Type := mk {
  isPlaying : bool;
  wave : Z;
  aliensKilled : Z;
  hud : HUD.t;
  alienGrid : G;
  shootingSystem : ShootingSystem.t;
  spawnTimers : list Z
}.

(** The constructor followed by [initThreeJS]. *)
Definition new : t :=
  {| isPlaying := false; wave := 1; aliensKilled := 0; hud := HUD.new;
     alienGrid := grid_new; shootingSystem := ShootingSystem.new;
     spawnTimers := [] |}.

(** [spawnWave()]; [phase] are the animation phases the call draws.  The
    sound is presentation. *)
Definition spawnWave (phase : nat -> nat -> Q) (gm : t) : t :=
  {| isPlaying := isPlaying gm; wave := wave gm;
     aliensKilled := aliensKilled gm;
     hud := HUD.setWave (wave gm) (hud gm);
     alienGrid := grid_spawnWave phase (wave gm) (alienGrid gm);
     shootingSystem := shootingSystem gm;
     spawnTimers := spawnTimers gm |}.

(** The part of [startGame()] after camera and audio are granted, up to
    the first call of [gameLoop]. *)
Definition startGame (phase : nat -> nat -> Q) (gm : t) : t :=
  spawnWave phase
    {| isPlaying := true; wave := 1; aliensKilled := 0;
       hud := HUD.reset (hud gm);
       alienGrid := alienGrid gm; shootingSystem := shootingSystem gm;
       spawnTimers := spawnTimers gm |}.

(** [restartGame()]. *)
Definition restartGame (phase : nat -> nat -> Q) (gm : t) : t :=
  spawnWave phase
    {| isPlaying := true; wave := 1; aliensKilled := 0;
       hud := HUD.reset (hud gm);
       alienGrid := grid_clear (alienGrid gm);
       shootingSystem := ShootingSystem.clear (shootingSystem gm);
       spawnTimers := spawnTimers gm |}.

(** [onAlienHit(alien)], at time [now].  A hit always denotes an alien of
    the grid it was read from; the branch for a dangling reference is
    never taken. *)
Definition onAlienHit (now : Z) (gm : t) (alien : Target) : t :=
  match grid_destroyAlien (target_ref alien) (alienGrid gm) with
  | None => gm
  | Some (points, grid') =>
      {| isPlaying := isPlaying gm; wave := wave gm;
         aliensKilled := aliensKilled gm + 1;
         hud := HUD.addScore now points (hud gm);
         alienGrid := grid';
         shootingSystem := shootingSystem gm;
         spawnTimers := spawnTimers gm |}
  end.

(** [gameOver()]. *)
Definition gameOver (gm : t) : t :=
  {| isPlaying := false; wave := wave gm; aliensKilled := aliensKilled gm;
     hud := hud gm;
     alienGrid := grid_clear (alienGrid gm);
     shootingSystem := ShootingSystem.clear (shootingSystem gm);
     spawnTimers := spawnTimers gm |}.

(** [onAlienHitGround()]. *)
Definition onAlienHitGround (phase : nat -> nat -> Q) (gm : t) : t :=
  let '(remainingLives, hud') := HUD.loseLife (hud gm) in
  let gm1 :=
    {| isPlaying := isPlaying gm; wave := wave gm;
       aliensKilled := aliensKilled gm; hud := hud';
       alienGrid := alienGrid gm; shootingSystem := shootingSystem gm;
       spawnTimers := spawnTimers gm |} in
  if remainingLives <=? 0 then gameOver gm1
  else
    spawnWave phase
      {| isPlaying := isPlaying gm1; wave := wave gm1;
         aliensKilled := aliensKilled gm1; hud := hud gm1;
         alienGrid := grid_clear (alienGrid gm1);
         shootingSystem := shootingSystem gm1;
         spawnTimers := spawnTimers gm1 |}.

(** [onWaveComplete()], at time [now]: the wave number is incremented and
    a spawn is scheduled 1500 ms later. *)
Definition onWaveComplete (now : Z) (gm : t) : t :=
  {| isPlaying := isPlaying gm; wave := wave gm + 1;
     aliensKilled := aliensKilled gm; hud := hud gm;
     alienGrid := alienGrid gm; shootingSystem := shootingSystem gm;
     spawnTimers := spawnTimers gm ++ [now + 1500] |}.

(** One call of [gameLoop()]: [now] is the time of the frame, [deltaTime]
    the value of [clock.getDelta()], [phase] the animation phases a respawn
    in this frame draws.  Rendering is presentation. *)
Definition gameLoop (now : Z) (deltaTime : Q) (phase : nat -> nat -> Q) (gm : t) : t :=
  if negb (isPlaying gm) then gm
  else
    let '(hitGround, grid1) := grid_update deltaTime (alienGrid gm) in
    let gm1 :=
      {| isPlaying := isPlaying gm; wave := wave gm;
         aliensKilled := aliensKilled gm; hud := hud gm;
         alienGrid := grid1; shootingSystem := shootingSystem gm;
         spawnTimers := spawnTimers gm |} in
    let gm2 := if hitGround then onAlienHitGround phase gm1 else gm1 in
    let aliveAliens := grid_targets (alienGrid gm2) in
    let '(hits, shooting') :=
      ShootingSystem.update deltaTime now aliveAliens (shootingSystem gm2) in
    let gm3 :=
      {| isPlaying := isPlaying gm2; wave := wave gm2;
         aliensKilled := aliensKilled gm2; hud := hud gm2;
         alienGrid := alienGrid gm2; shootingSystem := shooting';
         spawnTimers := spawnTimers gm2 |} in
    let gm4 := fold_left (onAlienHit now) hits gm3 in
    if grid_isWaveCleared (alienGrid gm4) then onWaveComplete now gm4 else gm4.

(** The callback of the oldest [setTimeout] of [onWaveComplete], run by the
    event loop at time [now]: it runs once it is due, and not before. *)
Definition spawnTimerTick (now : Z) (phase : nat -> nat -> Q) (gm : t) : t :=
  match spawnTimers gm with
  | due :: rest =>
      if due <=? now then
        let gm1 :=
          {| isPlaying := isPlaying gm; wave := wave gm;
             aliensKilled := aliensKilled gm; hud := hud gm;
             alienGrid := alienGrid gm; shootingSystem := shootingSystem gm;
             spawnTimers := rest |} in
        if isPlaying gm1 then spawnWave phase gm1 else gm1
      else gm
  | [] => gm
  end.

(** [handleTouch] and [handleClick], at time [now]. *)
Definition handleClick (now : Z) (camera : ShootingSystem.Camera) (gm : t) : t :=
  if negb (isPlaying gm) then gm
  else
    {| isPlaying := isPlaying gm; wave := wave gm;
       aliensKilled := aliensKilled gm; hud := hud gm;
       alienGrid := alienGrid gm;
       shootingSystem := snd (ShootingSystem.shoot now camera (shootingSystem gm));
       spawnTimers := spawnTimers gm |}.

End WithGrid.
Arguments t : clear implicits.
End GameManager.

(** ** One tick of the projectiles, read projectile by projectile *)

(** What one call of [ShootingSystem.update] does with one projectile. *)
Inductive Outcome : Type :=
| Kept (p : ShootingSystem.Projectile)
| Expired
| Hit (target : Target).

Definition outcome (now : Z) (targets : list Target)
           (p : ShootingSystem.Projectile) : Outcome :=
  if negb (ShootingSystem.isActive p) then Kept p
  else
    let moved := ShootingSystem.advance p in
    if ShootingSystem.projectileLifetime <? now - ShootingSystem.createdAt moved
    then Expired
    else
      match ShootingSystem.firstHit moved targets with
      | Some target => Hit target
      | None => Kept moved
      end.

Definition kept (now : Z) (targets : list Target)
           (p : ShootingSystem.Projectile) : option ShootingSystem.Projectile :=
  match outcome now targets p with Kept q => Some q | _ => None end.

Definition recorded (now : Z) (targets : list Target)
           (p : ShootingSystem.Projectile) : option Target :=
  match outcome now targets p with Hit target => Some target | _ => None end.

(** The projectiles a tick leaves in the list, in their order. *)
Definition survivors (now : Z) (targets : list Target)
           (ps : list ShootingSystem.Projectile) : list ShootingSystem.Projectile :=
  omap (kept now targets) ps.

(** The hits a tick records for a list of projectiles, in the order of the
    list. *)
Definition recordedHits (now : Z) (targets : list Target)
           (ps : list ShootingSystem.Projectile) : list Target :=
  omap (recorded now targets) ps.

(** ** One tick of the projectiles, with the scene *)

(** [removeProjectile(index)] with its effect on the scene: the projectile
    found at the index, as it is at that moment, is handed to [scene.remove]
    and spliced out of the array; an index that holds nothing does nothing.
    [removed] lists the projectiles handed to [scene.remove] so far. *)
Definition removeProjectileFromScene (index : nat)
           (ps removed : list ShootingSystem.Projectile)
  : list ShootingSystem.Projectile * list ShootingSystem.Projectile :=
  match ps !! index with
  | Some projectile => (delete index ps, removed ++ [projectile])
  | None => (ps, removed)
  end.

(** The outer loop of [update], as [ShootingSystem.update_loop], keeping the
    projectiles it hands to [scene.remove] as well. *)
Fixpoint update_loop_scene (k : nat) (now : Z) (targets : list Target)
         (ps : list ShootingSystem.Projectile) (hits : list Target)
         (removed : list ShootingSystem.Projectile)
  : list ShootingSystem.Projectile * list Target * list ShootingSystem.Projectile :=
  match k with
  | O => (ps, hits, removed)
  | S i =>
      match ps !! i with
      | None => update_loop_scene i now targets ps hits removed
      | Some projectile =>
          if negb (ShootingSystem.isActive projectile)
          then update_loop_scene i now targets ps hits removed
          else
            let moved := ShootingSystem.advance projectile in
            let ps1 := <[i := moved]> ps in
            if ShootingSystem.projectileLifetime
               <? now - ShootingSystem.createdAt moved then
              let '(ps2, removed') := removeProjectileFromScene i ps1 removed in
              update_loop_scene i now targets ps2 hits removed'
            else
              match ShootingSystem.firstHit moved targets with
              | Some target =>
                  let ps2 := <[i := ShootingSystem.deactivate moved]> ps1 in
                  let '(ps3, removed') := removeProjectileFromScene i ps2 removed in
                  update_loop_scene i now targets ps3 (hits ++ [target]) removed'
              | None => update_loop_scene i now targets ps1 hits removed
              end
      end
  end.

(** [update(deltaTime, targets)] with the scene: the hits, the state after
    the call, and the projectiles the call handed to [scene.remove], in the
    order of the calls. *)
Definition update_scene (deltaTime : Q) (now : Z) (targets : list Target)
           (s : ShootingSystem.t)
  : list Target * ShootingSystem.t * list ShootingSystem.Projectile :=
  let '(ps, hits, removed) :=
    update_loop_scene (length (ShootingSystem.projectiles s)) now targets
                      (ShootingSystem.projectiles s) [] [] in
  (hits,
   {| ShootingSystem.lastShotTime := ShootingSystem.lastShotTime s;
      ShootingSystem.projectiles := ps |},
   removed).

(** The object a tick hands to [scene.remove] for one projectile, if any: an
    expired projectile as it was advanced, a projectile that hit as it was
    advanced and deactivated. *)
Definition discarded (now : Z) (targets : list Target)
           (p : ShootingSystem.Projectile) : option ShootingSystem.Projectile :=
  match outcome now targets p with
  | Expired => Some (ShootingSystem.advance p)
  | Hit _ => Some (ShootingSystem.deactivate (ShootingSystem.advance p))
  | Kept _ => None
  end.

Definition discardedOf (now : Z) (targets : list Target)
           (ps : list ShootingSystem.Projectile) : list ShootingSystem.Projectile :=
  omap (discarded now targets) ps.

(** ** Concrete situations used by the closed examples *)

(** An animation curve and animation phases for closed examples; the general
    statements hold for every curve and all phases. *)
Definition flat : Math := {| Math_sin := fun _ => 0%Q |}.
Definition noPhase : nat -> nat -> Q := fun _ _ => 0%Q.

(** A camera at the position [initThreeJS] gives it, looking down -z. *)
Definition frontCamera : ShootingSystem.Camera :=
  ShootingSystem.mkCamera (Vector3.mk 0 0 5) (Vector3.mk 0 0 (-1)).

(** A shooting system after one accepted shot at time 1000. *)
Definition oneShot : ShootingSystem.t :=
  snd (ShootingSystem.shoot 1000 frontCamera ShootingSystem.new).

(** Two accepted shots, 200 ms apart, with no frame in between. *)
Definition twoShots : ShootingSystem.t :=
  snd (ShootingSystem.shoot 1200 frontCamera oneShot).

(** A camera at the same position, looking along +x. *)
Definition sideCamera : ShootingSystem.Camera :=
  ShootingSystem.mkCamera (Vector3.mk 0 0 5) (Vector3.mk 1 0 0).

(** A shot to the side at time 1000, then a shot to the front at time 1200,
    with no frame in between. *)
Definition sideThenFront : ShootingSystem.t :=
  snd (ShootingSystem.shoot 1200 frontCamera
         (snd (ShootingSystem.shoot 1000 sideCamera ShootingSystem.new))).

(** The two projectiles of that situation, as [shoot] created them. *)
Definition sideProjectile : ShootingSystem.Projectile :=
  Eval vm_compute in
    nth 0 (ShootingSystem.projectiles sideThenFront)
        (ShootingSystem.mkProjectile (Vector3.mk 0 0 0) (Vector3.mk 0 0 0) 0 false).

Definition frontProjectile : ShootingSystem.Projectile :=
  Eval vm_compute in
    nth 1 (ShootingSystem.projectiles sideThenFront)
        (ShootingSystem.mkProjectile (Vector3.mk 0 0 0) (Vector3.mk 0 0 0) 0 false).

(** A live alien half a unit in front of where the two projectiles start. *)
Definition nearTarget : Target :=
  mkTarget (4%nat, 5%nat) true (Vector3.mk 0 (-2 # 10) 4).

(** [n] calls of [update], each with the same [deltaTime]. *)
Definition boundaryFrames `{Math} (n : nat) (deltaTime : Q) (g : BoundaryGrid.t)
  : BoundaryGrid.t :=
  Nat.iter n (fun g => snd (BoundaryGrid.update deltaTime g)) g.

Definition cycleFrames `{Math} (n : nat) (deltaTime : Q) (g : CycleGrid.t)
  : CycleGrid.t :=
  Nat.iter n (fun g => snd (CycleGrid.update deltaTime g)) g.

(** Wave 1, freshly spawned, in each variant. *)
Definition boundaryWave1 (phase : nat -> nat -> Q) : BoundaryGrid.t :=
  BoundaryGrid.spawnWave phase 1 BoundaryGrid.new.

Definition cycleWave1 (phase : nat -> nat -> Q) : CycleGrid.t :=
  CycleGrid.spawnWave phase 1 CycleGrid.new.

(** Wave 1 after the alien at row 0, column 0 has been destroyed. *)
Definition boundaryOneKilled : BoundaryGrid.t :=
  match BoundaryGrid.destroyAlien (0%nat, 0%nat) (boundaryWave1 noPhase) with
  | Some (_, g) => g
  | None => boundaryWave1 noPhase
  end.

Definition cycleOneKilled : CycleGrid.t :=
  match CycleGrid.destroyAlien (0%nat, 0%nat) (cycleWave1 noPhase) with
  | Some (_, g) => g
  | None => cycleWave1 noPhase
  end.

(** Wave 1 of the boundary-based variant after the aliens of the two outer
    columns have been destroyed: the live aliens span x in [-4.8, 4.8], inside
    the boundary. *)
Definition boundaryNarrowed : BoundaryGrid.t :=
  fold_left
    (fun g alien =>
       match BoundaryGrid.destroyAlien alien g with
       | Some (_, g') => g'
       | None => g
       end)
    (List.flat_map (fun row => [(row, 0%nat); (row, 10%nat)]) (seq 0 5))
    (boundaryWave1 noPhase).

(** Wave 501 of the cycle-counted variant after six calls of [update]: its
    sweep speed is 1.52 per call, and the seventh call reaches the horizontal
    limit of 10. *)
Definition cycleAtLimit : CycleGrid.t :=
  @cycleFrames flat 6 (1 # 60) (CycleGrid.spawnWave noPhase 501 CycleGrid.new).

(** A game started at wave 1 in which every alien of the wave has been hit,
    in the order [getAliveAliens()] lists them, all at time 5000: the state
    in which [isWaveCleared()] first answers true. *)
Definition clearedGame {G : Type} `{AlienGridOps G} (phase : nat -> nat -> Q)
  : GameManager.t G :=
  let started := GameManager.startGame phase GameManager.new in
  fold_left (GameManager.onAlienHit 5000)
            (grid_targets (GameManager.alienGrid started))
            started.

(** ** Readings of the state used by the further properties *)

(** What the game logic reads of an alien, as opposed to its transform: its
    liveness, visibility, tier, points, animation phase and place in the
    grid. *)
Definition alienData (a : Alien.t)
  : bool * bool * Z * Z * Q * nat * nat :=
  (Alien.isAlive a, Alien.visible a, Alien.type a, Alien.points a,
   Alien.wiggleOffset a, Alien.gridRow a, Alien.gridCol a).

(** The boundary-based formation reaches both boundaries at once: its sweep
    direction is 1 or -1, some live alien is at or beyond x = 5 and some live
    alien is at or beyond x = -5. *)
Definition spansBoundary (g : BoundaryGrid.t) : Prop :=
  (BoundaryGrid.direction g = 1 \/ BoundaryGrid.direction g = -1)
  /\ (exists a, In a (BoundaryGrid.getAliveAliens g)
                /\ (5 <= BoundaryGrid.worldX g a)%Q)
  /\ (exists a, In a (BoundaryGrid.getAliveAliens g)
                /\ (BoundaryGrid.worldX g a <= -5)%Q).

(** The operations that act on a formation within one wave. *)
Inductive GridOp : Type :=
| OpUpdate (deltaTime : Q)
| OpDestroy (alien : AlienRef).

(** One operation on the cycle-counted grid; a [destroyAlien] that is given
    no object of the grid leaves it alone. *)
Definition cycleApply `{Math} (g : CycleGrid.t) (op : GridOp) : CycleGrid.t :=
  match op with
  | OpUpdate deltaTime => snd (CycleGrid.update deltaTime g)
  | OpDestroy alien =>
      match CycleGrid.destroyAlien alien g with
      | Some (_, g') => g'
      | None => g
      end
  end.

(** A sequence of operations, in order. *)
Definition cycleRun `{Math} (ops : list GridOp) (g : CycleGrid.t) : CycleGrid.t :=
  fold_left cycleApply ops g.

(** The sweep speed of the cycle-counted grid as a function of the live
    count: the speed [destroyAlien] last assigned, or the speed of the spawn
    while no alien has been destroyed. *)
Definition cycleSpeedLaw (g : CycleGrid.t) : Prop :=
  (0 <= CycleGrid.baseSpeed * CycleGrid.speedMultiplier g)%Q
  /\ (CycleGrid.moveSpeed g
      == CycleGrid.baseSpeed * CycleGrid.speedMultiplier g
         * (1 + (55 - inject_Z (Z.of_nat (Nat.max 1 (CycleGrid.getAliveCount g))))
                * (2 # 100)))%Q.

(** The animated score counter of [HUD.animateScore]
    (src/src/ui/HUD.js). *)
Module ScoreAnimation.

(** One call of the [animate] closure on [displayedScore] and the current
    [targetScore]: while the displayed score is behind, it advances by a
    tenth of the gap, rounded up, and never past the target. *)
Definition animateStep (displayedScore targetScore : Z) : Z :=
  if displayedScore <? targetScore then
    let diff := targetScore - displayedScore in
    let increment := Qceiling (inject_Z diff / 10) in
    Z.min (displayedScore + increment) targetScore
  else displayedScore.

(** [n] animation frames with the target unchanged. *)
Definition animateFrames (n : nat) (displayedScore targetScore : Z) : Z :=
  Nat.iter n (fun displayed => animateStep displayed targetScore) displayedScore.

End ScoreAnimation.

(** ** Properties *)

(** *** Rationals *)

Lemma Qltb_lt (a b : Q) : Qltb a b = true <-> (a < b)%Q.
Proof.
  unfold Qltb. rewrite negb_true_iff. split.
  - intros Hb. apply Qnot_le_lt. intros Hle.
    apply Qle_bool_iff in Hle. congruence.
  - intros Hlt. destruct (Qle_bool b a) eqn:E; [|reflexivity].
    apply Qle_bool_iff in E. lra.
Qed.

(** *** ShootingSystem *)

Section ShootingFacts.
Import ShootingSystem.
Variables (now : Z) (targets : list Target).

Lemma survivors_app (l1 l2 : list Projectile) :
  survivors now targets (l1 ++ l2)
  = survivors now targets l1 ++ survivors now targets l2.
Proof. apply omap_app. Qed.

Lemma recordedHits_app (l1 l2 : list Projectile) :
  recordedHits now targets (l1 ++ l2)
  = recordedHits now targets l1 ++ recordedHits now targets l2.
Proof. apply omap_app. Qed.

(** The loop over the indices below [length l1] treats each projectile of
    [l1] on its own, from the last to the first, and leaves the rest of the
    list alone. *)
Lemma update_loop_spec (l1 : list Projectile) :
  forall (l2 : list Projectile) (hits : list Target),
    update_loop (length l1) now targets (l1 ++ l2) hits
    = (survivors now targets l1 ++ l2,
       hits ++ recordedHits now targets (rev l1)).
Proof.
  induction l1 as [|p l IH] using rev_ind; intros l2 hits.
  - simpl. now rewrite app_nil_r.
  - rewrite length_app, Nat.add_comm. simpl length. simpl Nat.add.
    rewrite <- app_assoc. simpl app. cbn [update_loop].
    rewrite list_lookup_middle by reflexivity.
    rewrite survivors_app, rev_app_distr. simpl rev. simpl app.
    assert (Hins : forall q, <[length l := q]> (l ++ p :: l2) = l ++ q :: l2).
    { intros q. rewrite insert_app_r_alt by lia.
      now rewrite Nat.sub_diag. }
    assert (Hins2 : forall q r, <[length l := q]> (l ++ r :: l2) = l ++ q :: l2).
    { intros q r. rewrite insert_app_r_alt by lia.
      now rewrite Nat.sub_diag. }
    unfold kept, recorded, outcome.
    destruct (isActive p) eqn:Hact; cbn [negb].
    + rewrite Hins.
      destruct (projectileLifetime <? now - createdAt (advance p)) eqn:Hexp.
      * unfold removeProjectile. rewrite delete_middle, IH.
        now rewrite app_nil_r.
      * destruct (firstHit (advance p) targets) as [target|] eqn:Hfirst.
        -- unfold removeProjectile. rewrite Hins2, delete_middle, IH.
           rewrite app_nil_r, <- app_assoc. reflexivity.
        -- rewrite IH. rewrite <- app_assoc. reflexivity.
    + rewrite IH. rewrite <- app_assoc. reflexivity.
Qed.
End ShootingFacts.

(** One call of [update] over the whole list: the hits are recorded from the
    last projectile to the first, the survivors keep their order. *)
Lemma update_spec (deltaTime : Q) (now : Z) (targets : list Target)
      (s : ShootingSystem.t) :
  ShootingSystem.update deltaTime now targets s
  = (recordedHits now targets (rev (ShootingSystem.projectiles s)),
     {| ShootingSystem.lastShotTime := ShootingSystem.lastShotTime s;
        ShootingSystem.projectiles :=
          survivors now targets (ShootingSystem.projectiles s) |}).
Proof.
  unfold ShootingSystem.update.
  rewrite <- (app_nil_r (ShootingSystem.projectiles s)) at 2.
  rewrite update_loop_spec. now rewrite app_nil_r.
Qed.

(** [deltaTime] plays no part in a tick of the projectiles. *)
Lemma update_ignores_deltaTime (d1 d2 : Q) (now : Z) (targets : list Target)
      (s : ShootingSystem.t) :
  ShootingSystem.update d1 now targets s = ShootingSystem.update d2 now targets s.
Proof. now rewrite !update_spec. Qed.

(** Only an active projectile records a hit. *)
Lemma recorded_active (now : Z) (targets : list Target)
      (p : ShootingSystem.Projectile) (target : Target) :
  recorded now targets p = Some target -> ShootingSystem.isActive p = true.
Proof.
  unfold recorded, outcome.
  destruct (ShootingSystem.isActive p); [reflexivity|]. cbn. discriminate.
Qed.

(** A projectile records at most one hit in a tick: the hit list is no longer
    than the list of projectiles that were active. *)
Lemma hits_at_most_one_per_projectile (deltaTime : Q) (now : Z)
      (targets : list Target) (s : ShootingSystem.t) :
  (length (fst (ShootingSystem.update deltaTime now targets s))
   <= length (List.filter ShootingSystem.isActive (ShootingSystem.projectiles s)))%nat.
Proof.
  rewrite update_spec. cbn [fst]. unfold recordedHits.
  rewrite <- (length_rev (List.filter _ _)), <- filter_rev.
  induction (rev (ShootingSystem.projectiles s)) as [|p l IH]; [reflexivity|].
  change (omap (recorded now targets) (p :: l))
    with (match recorded now targets p with
          | Some t => t :: omap (recorded now targets) l
          | None => omap (recorded now targets) l
          end).
  cbn [List.filter].
  destruct (recorded now targets p) as [target|] eqn:Hrec.
  - rewrite (recorded_active _ _ _ _ Hrec). cbn [length]. lia.
  - destruct (ShootingSystem.isActive p); cbn [length]; lia.
Qed.

(** The step of one projectile is its direction times the fixed speed. *)
Lemma advance_displacement (p : ShootingSystem.Projectile) :
  Vector3.equiv
    (Vector3.sub (ShootingSystem.position (ShootingSystem.advance p))
                 (ShootingSystem.position p))
    (Vector3.multiplyScalar (ShootingSystem.direction p)
                            ShootingSystem.projectileSpeed).
Proof.
  unfold Vector3.equiv, ShootingSystem.advance; cbn. repeat split; ring.
Qed.

(** C8 (cooldown enforcement).  A call of [shoot] less than 200 ms after the
    last accepted shot returns false and leaves the whole state as it was:
    the list of projectiles and the time of the last shot are unchanged. *)
Theorem shoot_within_cooldown (now : Z) (camera : ShootingSystem.Camera)
        (s : ShootingSystem.t) :
  now - ShootingSystem.lastShotTime s < 200 ->
  ShootingSystem.shoot now camera s = (false, s).
Proof.
  intros Hcool. unfold ShootingSystem.shoot, ShootingSystem.cooldown.
  destruct (Z.ltb_spec (now - ShootingSystem.lastShotTime s) 200) as [_|Hge].
  - reflexivity.
  - lia.
Qed.

Lemma shoot_within_cooldown_witness :
  1100 - ShootingSystem.lastShotTime oneShot < 200
  /\ ShootingSystem.shoot 1100 frontCamera oneShot = (false, oneShot)
  /\ length (ShootingSystem.projectiles oneShot) = 1%nat.
Proof.
  assert (Hcool : 1100 - ShootingSystem.lastShotTime oneShot < 200)
    by (vm_compute; reflexivity).
  split; [exact Hcool|]. split.
  - exact (shoot_within_cooldown 1100 frontCamera oneShot Hcool).
  - reflexivity.
Defined.

(** C1 (single hit per tick), at the input where the code departs from it.
    Two projectiles fired 200 ms apart with no frame in between travel
    together; in the tick that brings both within the hit radius of one live
    alien, each of them records that alien, so the hit list holds it twice. *)
Theorem same_target_hit_twice :
  let hits := fst (ShootingSystem.update (1 # 60) 1216 [nearTarget] twoShots) in
  hits = [nearTarget; nearTarget]
  /\ ~ NoDup (List.map target_ref hits).
Proof.
  cbv zeta.
  assert (E : fst (ShootingSystem.update (1 # 60) 1216 [nearTarget] twoShots)
              = [nearTarget; nearTarget]) by (vm_compute; reflexivity).
  split; [exact E|].
  rewrite E. cbn. intros Hnd. apply NoDup_cons_1_1 in Hnd.
  apply Hnd. left.
Qed.

(** A list of projectiles none of which records a hit yields no hit. *)
Lemma recordedHits_none (now : Z) (targets : list Target)
      (l : list ShootingSystem.Projectile) :
  (forall p, In p l -> recorded now targets p = None) ->
  recordedHits now targets l = [].
Proof.
  induction l as [|p l IH]; intros Hnone; [reflexivity|].
  unfold recordedHits.
  change (omap (recorded now targets) (p :: l))
    with (match recorded now targets p with
          | Some t => t :: omap (recorded now targets) l
          | None => omap (recorded now targets) l
          end).
  rewrite (Hnone p) by (left; reflexivity).
  apply IH. intros q Hq. apply Hnone. right; exact Hq.
Qed.

(** The loop that keeps the removed projectiles treats every projectile on
    its own as well, and hands the discarded ones to the scene from the last
    projectile of the list to the first. *)
Lemma update_loop_scene_spec (now : Z) (targets : list Target)
      (l1 : list ShootingSystem.Projectile) :
  forall (l2 : list ShootingSystem.Projectile) (hits : list Target)
         (removed : list ShootingSystem.Projectile),
    update_loop_scene (length l1) now targets (l1 ++ l2) hits removed
    = (survivors now targets l1 ++ l2,
       hits ++ recordedHits now targets (rev l1),
       removed ++ discardedOf now targets (rev l1)).
Proof.
  induction l1 as [|p l IH] using rev_ind; intros l2 hits removed.
  - cbn. now rewrite !app_nil_r.
  - rewrite length_app, Nat.add_comm. simpl length. simpl Nat.add.
    rewrite <- app_assoc. simpl app. cbn [update_loop_scene].
    rewrite list_lookup_middle by reflexivity.
    rewrite survivors_app, rev_app_distr. simpl rev. simpl app.
    assert (Hins : forall q r, <[length l := q]> (l ++ r :: l2) = l ++ q :: l2).
    { intros q r. rewrite insert_app_r_alt by lia.
      now rewrite Nat.sub_diag. }
    assert (Hrem : forall q rem,
               removeProjectileFromScene (length l) (l ++ q :: l2) rem
               = (l ++ l2, rem ++ [q])).
    { intros q rem. unfold removeProjectileFromScene.
      rewrite list_lookup_middle by reflexivity. now rewrite delete_middle. }
    unfold kept, recorded, discarded, outcome.
    destruct (ShootingSystem.isActive p) eqn:Hact; cbn [negb].
    + rewrite Hins.
      destruct (ShootingSystem.projectileLifetime
                <? now - ShootingSystem.createdAt (ShootingSystem.advance p)) eqn:Hexp.
      * rewrite Hrem, IH. rewrite app_nil_r, <- app_assoc. reflexivity.
      * destruct (ShootingSystem.firstHit (ShootingSystem.advance p) targets)
          as [target|] eqn:Hfirst.
        -- rewrite Hins, Hrem, IH.
           rewrite app_nil_r, <- !app_assoc. reflexivity.
        -- rewrite IH. rewrite <- app_assoc. reflexivity.
    + rewrite IH. rewrite <- app_assoc. reflexivity.
Qed.

(** One call of [update] with the scene, over the whole list. *)
Lemma update_scene_spec (deltaTime : Q) (now : Z) (targets : list Target)
      (s : ShootingSystem.t) :
  update_scene deltaTime now targets s
  = (recordedHits now targets (rev (ShootingSystem.projectiles s)),
     {| ShootingSystem.lastShotTime := ShootingSystem.lastShotTime s;
        ShootingSystem.projectiles :=
          survivors now targets (ShootingSystem.projectiles s) |},
     discardedOf now targets (rev (ShootingSystem.projectiles s))).
Proof.
  unfold update_scene.
  rewrite <- (app_nil_r (ShootingSystem.projectiles s)) at 2.
  rewrite update_loop_scene_spec. now rewrite app_nil_r.
Qed.

(** Keeping the removed projectiles does not change what [update] returns
    and leaves. *)
Lemma update_scene_update (deltaTime : Q) (now : Z) (targets : list Target)
      (s : ShootingSystem.t) :
  fst (update_scene deltaTime now targets s)
  = ShootingSystem.update deltaTime now targets s.
Proof. now rewrite update_scene_spec, update_spec. Qed.

(** What a tick does with an active projectile that has no live target in
    range. *)
Lemma outcome_out_of_range (now : Z) (targets : list Target)
      (p : ShootingSystem.Projectile) :
  ShootingSystem.isActive p = true ->
  ShootingSystem.firstHit (ShootingSystem.advance p) targets = None ->
  outcome now targets p
  = if 2000 <? now - ShootingSystem.createdAt p
    then Expired
    else Kept (ShootingSystem.advance p).
Proof.
  intros Hact Hfar. unfold outcome. rewrite Hact. cbn [negb].
  change (ShootingSystem.createdAt (ShootingSystem.advance p))
    with (ShootingSystem.createdAt p).
  change ShootingSystem.projectileLifetime with 2000.
  destruct (2000 <? now - ShootingSystem.createdAt p); [reflexivity|].
  now rewrite Hfar.
Qed.

(** C7 (projectile expiry), at the inputs where the claim fails.  A
    projectile created at time 1000 with no target at all is still in the
    list after the tick at time 3000, where its elapsed lifetime is exactly
    2000 ms, and nothing is handed to the scene for removal.  The tick at
    time 3001 discards it, and the projectile it discards still has its
    [isActive] flag set: it is discarded without being deactivated. *)
Lemma expiry_not_at_lifetime :
  3000 - 1000 >= ShootingSystem.projectileLifetime
  /\ List.map ShootingSystem.createdAt (ShootingSystem.projectiles oneShot) = [1000]
  /\ List.map ShootingSystem.createdAt
       (ShootingSystem.projectiles
          (snd (ShootingSystem.update (1 # 60) 3000 [] oneShot))) = [1000]
  /\ snd (update_scene (1 # 60) 3000 [] oneShot) = []
  /\ ShootingSystem.projectiles
       (snd (ShootingSystem.update (1 # 60) 3001 [] oneShot)) = []
  /\ List.map (fun p => (ShootingSystem.createdAt p, ShootingSystem.isActive p))
              (snd (update_scene (1 # 60) 3001 [] oneShot)) = [(1000, true)].
Proof.
  split; [vm_compute; discriminate|].
  repeat split; vm_compute; reflexivity.
Qed.

(** C7 (projectile expiry), as the code has it, for one projectile among any
    others.  Take an active projectile [p] anywhere in the list, with the
    projectiles [before] and [after] it, and a tick in which [p], once
    advanced, has no live target within the hit radius; the other projectiles
    may hit, expire or fly on.  Then [p] records no hit: the hits of the tick
    are those of the other projectiles.  While the elapsed lifetime of [p] is
    at most 2000 ms, [p] is advanced and kept in its place between the
    survivors of the others, still active and with its creation time, and it
    is not handed to the scene for removal.  Once the elapsed lifetime is
    more than 2000 ms, [p] is discarded: it is spliced out of the list and
    handed to [scene.remove], as it was advanced and with its [isActive] flag
    still set. *)
Theorem expiry_after_lifetime (deltaTime : Q) (now : Z) (targets : list Target)
        (s : ShootingSystem.t)
        (before after : list ShootingSystem.Projectile)
        (p : ShootingSystem.Projectile) :
  ShootingSystem.projectiles s = before ++ p :: after ->
  ShootingSystem.isActive p = true ->
  ShootingSystem.firstHit (ShootingSystem.advance p) targets = None ->
  let result := update_scene deltaTime now targets s in
  let hits := fst (fst result) in
  let left := ShootingSystem.projectiles (snd (fst result)) in
  let removed := snd result in
  ShootingSystem.update deltaTime now targets s = fst result
  /\ hits = recordedHits now targets (rev after)
            ++ recordedHits now targets (rev before)
  /\ (now - ShootingSystem.createdAt p <= 2000 ->
      left = survivors now targets before
             ++ ShootingSystem.advance p :: survivors now targets after
      /\ removed = discardedOf now targets (rev after)
                   ++ discardedOf now targets (rev before)
      /\ ShootingSystem.isActive (ShootingSystem.advance p) = true
      /\ ShootingSystem.createdAt (ShootingSystem.advance p)
         = ShootingSystem.createdAt p)
  /\ (2000 < now - ShootingSystem.createdAt p ->
      left = survivors now targets before ++ survivors now targets after
      /\ removed = discardedOf now targets (rev after)
                   ++ ShootingSystem.advance p
                   :: discardedOf now targets (rev before)
      /\ ShootingSystem.isActive (ShootingSystem.advance p) = true).
Proof.
  intros Hlist Hact Hfar. cbv zeta.
  pose proof (outcome_out_of_range now targets p Hact Hfar) as Hout.
  split; [symmetry; apply update_scene_update|].
  rewrite update_scene_spec.
  cbn [fst snd ShootingSystem.projectiles]. rewrite Hlist.
  rewrite rev_app_distr. cbn [rev]. rewrite <- app_assoc. cbn [app].
  unfold survivors, recordedHits, discardedOf.
  rewrite !omap_app.
  change (omap ?f (p :: ?l))
    with (match f p with Some q => q :: omap f l | None => omap f l end).
  assert (Hkept : kept now targets p
                  = if 2000 <? now - ShootingSystem.createdAt p
                    then None else Some (ShootingSystem.advance p)).
  { unfold kept. rewrite Hout. now destruct (2000 <? _). }
  assert (Hrec : recorded now targets p = None).
  { unfold recorded. rewrite Hout. now destruct (2000 <? _). }
  assert (Hdis : discarded now targets p
                 = if 2000 <? now - ShootingSystem.createdAt p
                   then Some (ShootingSystem.advance p) else None).
  { unfold discarded. rewrite Hout. now destruct (2000 <? _). }
  rewrite Hkept, Hrec, Hdis. clear Hkept Hrec Hdis Hout.
  destruct (Z.ltb_spec 2000 (now - ShootingSystem.createdAt p)) as [Hold|Hyoung].
  - split; [reflexivity|]. split; [intros Hle; lia|].
    intros _. split; [reflexivity|]. split; [reflexivity | exact Hact].
  - split; [reflexivity|]. split; [|intros Hgt; lia].
    intros _. split; [reflexivity|]. split; [reflexivity|].
    split; [exact Hact | reflexivity].
Qed.

Lemma expiry_after_lifetime_witness :
  let early := update_scene (1 # 60) 1216 [nearTarget] sideThenFront in
  let late := update_scene (1 # 60) 3001 [nearTarget] sideThenFront in
  ShootingSystem.projectiles sideThenFront = [sideProjectile; frontProjectile]
  /\ ShootingSystem.update (1 # 60) 1216 [nearTarget] sideThenFront = fst early
  /\ fst (fst early) = [nearTarget]
  /\ ShootingSystem.projectiles (snd (fst early))
     = [ShootingSystem.advance sideProjectile]
  /\ ShootingSystem.update (1 # 60) 3001 [nearTarget] sideThenFront = fst late
  /\ fst (fst late) = [nearTarget]
  /\ ShootingSystem.projectiles (snd (fst late)) = []
  /\ snd late = [ShootingSystem.deactivate (ShootingSystem.advance frontProjectile);
                 ShootingSystem.advance sideProjectile]
  /\ ShootingSystem.isActive (ShootingSystem.advance sideProjectile) = true.
Proof.
  cbv zeta.
  assert (Hlist : ShootingSystem.projectiles sideThenFront
                  = [] ++ sideProjectile :: [frontProjectile])
    by (vm_compute; reflexivity).
  assert (Hact : ShootingSystem.isActive sideProjectile = true) by reflexivity.
  assert (Hfar : ShootingSystem.firstHit (ShootingSystem.advance sideProjectile)
                                         [nearTarget] = None)
    by (vm_compute; reflexivity).
  destruct (expiry_after_lifetime (1 # 60) 1216 [nearTarget] sideThenFront
              [] [frontProjectile] sideProjectile Hlist Hact Hfar)
    as (Hupd1 & Hhits1 & Hkeep1 & _).
  destruct (expiry_after_lifetime (1 # 60) 3001 [nearTarget] sideThenFront
              [] [frontProjectile] sideProjectile Hlist Hact Hfar)
    as (Hupd2 & Hhits2 & _ & Hdrop2).
  destruct Hkeep1 as (Hleft1 & _); [vm_compute; discriminate|].
  destruct Hdrop2 as (Hleft2 & Hrem2 & Hflag); [vm_compute; reflexivity|].
  split; [exact Hlist|].
  split; [exact Hupd1|].
  split; [rewrite Hhits1; vm_compute; reflexivity|].
  split; [rewrite Hleft1; vm_compute; reflexivity|].
  split; [exact Hupd2|].
  split; [rewrite Hhits2; vm_compute; reflexivity|].
  split; [rewrite Hleft2; vm_compute; reflexivity|].
  split; [rewrite Hrem2; vm_compute; reflexivity | exact Hflag].
Defined.

(** *** AlienGrid *)

(** C9 (idempotent destruction).  In both variants of the grid,
    [destroyAlien] on an alien whose [isAlive] flag is already false returns
    0 points and leaves the whole grid state as it was: every alien, the
    sweep speed and every other field. *)
Theorem destroyAlien_dead_is_noop (alien : AlienRef) :
  (forall (g : BoundaryGrid.t) (a : Alien.t),
      Rows.at_ref alien (BoundaryGrid.aliens g) = Some a ->
      Alien.isAlive a = false ->
      BoundaryGrid.destroyAlien alien g = Some (0, g))
  /\ (forall (g : CycleGrid.t) (a : Alien.t),
         Rows.at_ref alien (CycleGrid.aliens g) = Some a ->
         Alien.isAlive a = false ->
         CycleGrid.destroyAlien alien g = Some (0, g)).
Proof.
  split; intros g a Hat Hdead.
  - unfold BoundaryGrid.destroyAlien. rewrite Hat, Hdead. reflexivity.
  - unfold CycleGrid.destroyAlien. rewrite Hat, Hdead. reflexivity.
Qed.

Lemma destroyAlien_dead_is_noop_witness :
  BoundaryGrid.destroyAlien (0%nat, 0%nat) boundaryOneKilled
  = Some (0, boundaryOneKilled)
  /\ CycleGrid.destroyAlien (0%nat, 0%nat) cycleOneKilled
     = Some (0, cycleOneKilled).
Proof.
  destruct (destroyAlien_dead_is_noop (0%nat, 0%nat)) as [HB HC].
  split.
  - eapply HB; [vm_compute; reflexivity | reflexivity].
  - eapply HC; [vm_compute; reflexivity | reflexivity].
Defined.

Lemma nonempty_length {A : Type} (l : list A) :
  length l <> 0%nat -> (length l =? 0)%nat = false.
Proof. intros Hne. apply Nat.eqb_neq. exact Hne. Qed.

(** C10 (update without a formation).  In both variants, while [this.group]
    is [null], which is the case in the state the constructor builds and in
    every state [clear()] returns, [update(deltaTime)] returns false and
    leaves the whole state as it was, whatever [deltaTime] is. *)
Theorem update_without_formation {M : Math} (deltaTime : Q) :
  (forall g : BoundaryGrid.t,
      BoundaryGrid.group g = None ->
      BoundaryGrid.update deltaTime g = (false, g))
  /\ (forall g : CycleGrid.t,
         CycleGrid.group g = None ->
         CycleGrid.update deltaTime g = (false, g))
  /\ BoundaryGrid.group BoundaryGrid.new = None
  /\ CycleGrid.group CycleGrid.new = None
  /\ (forall g, BoundaryGrid.group (BoundaryGrid.clear g) = None)
  /\ (forall g, CycleGrid.group (CycleGrid.clear g) = None).
Proof.
  repeat split; try reflexivity.
  - intros g Hnone. unfold BoundaryGrid.update. now rewrite Hnone.
  - intros g Hnone. unfold CycleGrid.update. now rewrite Hnone.
Qed.

Lemma update_without_formation_witness :
  let b := BoundaryGrid.clear (boundaryWave1 noPhase) in
  let c := CycleGrid.clear (cycleWave1 noPhase) in
  @BoundaryGrid.update flat (1 # 60) b = (false, b)
  /\ @CycleGrid.update flat (1 # 60) c = (false, c)
  /\ @BoundaryGrid.update flat (1 # 60) BoundaryGrid.new = (false, BoundaryGrid.new)
  /\ @CycleGrid.update flat (1 # 60) CycleGrid.new = (false, CycleGrid.new).
Proof.
  cbv zeta.
  destruct (@update_without_formation flat (1 # 60)) as (HB & HC & _).
  split; [apply HB; reflexivity|].
  split; [apply HC; reflexivity|].
  split; [apply HB | apply HC]; reflexivity.
Defined.

(** C5 (reversal), at the input where the claim fails: in the cycle-counted
    variant the seventh call of [update] on wave 501 reaches the horizontal
    limit and reverses the direction, and the sweep speed after it is the
    speed before it. *)
Lemma cycle_reversal_keeps_speed :
  let g := cycleAtLimit in
  let g' := snd (@CycleGrid.update flat (1 # 60) g) in
  CycleGrid.reachedLimit g = true
  /\ CycleGrid.direction g = -1
  /\ CycleGrid.direction g' = 1
  /\ CycleGrid.dropCount g' = 1%nat
  /\ ~ (CycleGrid.moveSpeed g < CycleGrid.moveSpeed g')%Q.
Proof.
  split; [vm_compute; reflexivity|].
  split; [vm_compute; reflexivity|].
  split; [vm_compute; reflexivity|].
  split; [vm_compute; reflexivity|].
  apply Qle_not_lt, Qle_bool_iff. vm_compute. reflexivity.
Qed.

(** C5 (reversal), as the code has it.  When a call of [update] reverses the
    sweep, the direction is inverted and the group drops by the fixed
    [dropDistance] in both variants.  In the boundary-based variant the
    group does not move sideways in that call and the sweep speed is
    multiplied by 1.02, so it strictly increases when it is positive.  In the
    cycle-counted variant the group also takes its sideways step, the rest
    height of every live alien is lowered by [dropDistance] as well, the
    descent counter goes up by one, the travel counter returns to 0, and the
    sweep speed is left as it was. *)
Theorem reversal_effects {M : Math} (deltaTime : Q) :
  (forall (g : BoundaryGrid.t) (gp : Vector3.t),
      BoundaryGrid.group g = Some gp ->
      length (BoundaryGrid.aliens g) <> 0%nat ->
      BoundaryGrid.needsToChangeDirection g = true ->
      let g' := snd (BoundaryGrid.update deltaTime g) in
      BoundaryGrid.direction g' = - BoundaryGrid.direction g
      /\ BoundaryGrid.group g'
         = Some (Vector3.mk (Vector3.x gp)
                            (Vector3.y gp - BoundaryGrid.dropDistance)
                            (Vector3.z gp))
      /\ BoundaryGrid.aliens g'
         = List.map (List.map (Alien.wiggle (BoundaryGrid.wiggleTime g')
                                            BoundaryGrid.wiggleAmount (2 # 100)))
                    (BoundaryGrid.aliens g)
      /\ BoundaryGrid.moveSpeed g' = (BoundaryGrid.moveSpeed g * (102 # 100))%Q
      /\ ((0 < BoundaryGrid.moveSpeed g)%Q ->
          (BoundaryGrid.moveSpeed g < BoundaryGrid.moveSpeed g')%Q))
  /\ (forall (g : CycleGrid.t) (gp : Vector3.t),
         CycleGrid.group g = Some gp ->
         length (CycleGrid.aliens g) <> 0%nat ->
         (CycleGrid.dropCount g < CycleGrid.maxDrops)%nat ->
         CycleGrid.reachedLimit g = true ->
         let g' := snd (CycleGrid.update deltaTime g) in
         CycleGrid.direction g' = - CycleGrid.direction g
         /\ CycleGrid.group g'
            = Some (Vector3.mk (Vector3.x gp + CycleGrid.movement g)
                               (Vector3.y gp - CycleGrid.dropDistance)
                               (Vector3.z gp))
         /\ CycleGrid.aliens g'
            = List.map (List.map (Alien.wiggle (CycleGrid.wiggleTime g')
                                               CycleGrid.wiggleAmount (5 # 100)))
                       (List.map (List.map CycleGrid.lower) (CycleGrid.aliens g))
         /\ CycleGrid.dropCount g' = S (CycleGrid.dropCount g)
         /\ CycleGrid.currentHorizontalPosition g' = 0%Q
         /\ CycleGrid.moveSpeed g' = CycleGrid.moveSpeed g).
Proof.
  split.
  - intros g gp Hgroup Haliens Hturn. cbv zeta.
    unfold BoundaryGrid.update.
    rewrite Hgroup, (nonempty_length _ Haliens), Hturn. cbn.
    repeat split.
    + lia.
    + intros Hpos. lra.
  - intros g gp Hgroup Haliens Hdrops Hturn. cbv zeta.
    unfold CycleGrid.update.
    rewrite Hgroup, (nonempty_length _ Haliens).
    destruct (Nat.leb_spec CycleGrid.maxDrops (CycleGrid.dropCount g)) as [Hle|_];
      [lia|].
    rewrite Hturn. cbn. repeat split. lia.
Qed.

Lemma reversal_effects_witness :
  let b := boundaryWave1 noPhase in
  let b' := snd (@BoundaryGrid.update flat (1 # 60) b) in
  let c := cycleAtLimit in
  let c' := snd (@CycleGrid.update flat (1 # 60) c) in
  (BoundaryGrid.direction b' = - BoundaryGrid.direction b
   /\ (BoundaryGrid.moveSpeed b < BoundaryGrid.moveSpeed b')%Q)
  /\ (CycleGrid.direction c' = - CycleGrid.direction c
      /\ CycleGrid.moveSpeed c' = CycleGrid.moveSpeed c).
Proof.
  cbv zeta.
  destruct (@reversal_effects flat (1 # 60)) as [HB HC].
  split.
  - destruct (HB (boundaryWave1 noPhase) (Vector3.mk 0 0 0))
      as (Hdir & _ & _ & _ & Hspeed).
    + reflexivity.
    + vm_compute. discriminate.
    + vm_compute. reflexivity.
    + split; [exact Hdir|]. apply Hspeed. reflexivity.
  - edestruct (HC cycleAtLimit) as (Hdir & _ & _ & _ & _ & Hspeed).
    + vm_compute. reflexivity.
    + vm_compute. discriminate.
    + vm_compute. lia.
    + vm_compute. reflexivity.
    + split; [exact Hdir | exact Hspeed].
Defined.

(** A call of [update] never lowers a non-negative sweep speed, in either
    variant. *)
Lemma update_keeps_or_raises_speed {M : Math} (deltaTime : Q) :
  (forall g : BoundaryGrid.t,
      (0 <= BoundaryGrid.moveSpeed g)%Q ->
      (BoundaryGrid.moveSpeed g
       <= BoundaryGrid.moveSpeed (snd (BoundaryGrid.update deltaTime g)))%Q)
  /\ (forall g : CycleGrid.t,
         CycleGrid.moveSpeed (snd (CycleGrid.update deltaTime g))
         = CycleGrid.moveSpeed g).
Proof.
  split; intros g.
  - intros Hpos. unfold BoundaryGrid.update.
    destruct (BoundaryGrid.group g); [|cbn; lra].
    destruct (length (BoundaryGrid.aliens g) =? 0)%nat; [cbn; lra|].
    destruct (BoundaryGrid.needsToChangeDirection g); cbn; lra.
  - unfold CycleGrid.update.
    destruct (CycleGrid.group g); [|reflexivity].
    destruct (length (CycleGrid.aliens g) =? 0)%nat; [reflexivity|].
    destruct (CycleGrid.maxDrops <=? CycleGrid.dropCount g)%nat; reflexivity.
Qed.

(** C6 (monotonic sweep speed), at the input where the code departs from it.
    In the boundary-based variant, wave 1 reverses on each of its first two
    calls of [update], which brings the sweep speed to 0.015 x 1.02 x 1.02;
    destroying one alien then recomputes the speed from the base speed as
    0.015 x 1.02, which is lower. *)
Theorem kill_lowers_sweep_speed {M : Math} (phase : nat -> nat -> Q) (deltaTime : Q) :
  let g0 := boundaryWave1 phase in
  let g := boundaryFrames 2 deltaTime g0 in
  let after :=
    match BoundaryGrid.destroyAlien (0%nat, 0%nat) g with
    | Some (_, g') => g'
    | None => g
    end in
  option_map fst (BoundaryGrid.destroyAlien (0%nat, 0%nat) g) = Some 30
  /\ (BoundaryGrid.moveSpeed g0 < BoundaryGrid.moveSpeed g)%Q
  /\ (BoundaryGrid.moveSpeed after < BoundaryGrid.moveSpeed g)%Q.
Proof.
  split; [vm_compute; reflexivity|].
  split; vm_compute; reflexivity.
Qed.

(** C4 (motion proportional to elapsed time), at the input where the claim
    fails: with [deltaTime] = 1/60 the first call of [update] moves wave 1 of
    the cycle-counted variant by the whole sweep speed 0.02, not by
    0.02 / 60, and the tick moves a projectile by 0.5 along its direction,
    not by 0.5 / 60. *)
Lemma motion_not_scaled_by_deltaTime :
  let g := cycleWave1 noPhase in
  let g' := snd (@CycleGrid.update flat (1 # 60) g) in
  let s' := snd (ShootingSystem.update (1 # 60) 1016 [] oneShot) in
  (exists gp gp',
      CycleGrid.group g = Some gp
      /\ CycleGrid.group g' = Some gp'
      /\ ~ (Qabs (Vector3.x gp' - Vector3.x gp)
            == CycleGrid.moveSpeed g * (1 # 60))%Q)
  /\ (exists p p',
         ShootingSystem.projectiles oneShot = [p]
         /\ ShootingSystem.projectiles s' = [p']
         /\ ~ Vector3.equiv
               (Vector3.sub (ShootingSystem.position p') (ShootingSystem.position p))
               (Vector3.multiplyScalar
                  (ShootingSystem.direction p)
                  (ShootingSystem.projectileSpeed * (1 # 60)))).
Proof.
  cbv zeta. split.
  - eexists. eexists.
    split; [reflexivity|]. split; [vm_compute; reflexivity|].
    intros E. vm_compute in E. discriminate E.
  - eexists. eexists.
    split; [reflexivity|]. split; [vm_compute; reflexivity|].
    intros (_ & _ & E). vm_compute in E. discriminate E.
Qed.

(** C4 (per-tick motion), as the code has it.  The step of a tick does not
    depend on [deltaTime].  In the boundary-based variant a call of [update]
    that does not reverse moves the group sideways by [direction * moveSpeed],
    and a call that reverses does not move it sideways; in the cycle-counted
    variant every call below the descent limit moves it by
    [direction * moveSpeed].  A tick of the projectiles gives the same result
    for every [deltaTime]; it advances each active projectile by
    [direction * projectileSpeed], and a projectile that neither expires nor
    hits is in the list afterwards at that advanced position. *)
Theorem motion_per_tick {M : Math} (deltaTime : Q) :
  (forall (g : BoundaryGrid.t) (gp : Vector3.t),
      BoundaryGrid.group g = Some gp ->
      length (BoundaryGrid.aliens g) <> 0%nat ->
      BoundaryGrid.group (snd (BoundaryGrid.update deltaTime g))
      = Some (if BoundaryGrid.needsToChangeDirection g
              then Vector3.mk (Vector3.x gp)
                              (Vector3.y gp - BoundaryGrid.dropDistance)
                              (Vector3.z gp)
              else Vector3.mk
                     (Vector3.x gp
                      + inject_Z (BoundaryGrid.direction g) * BoundaryGrid.moveSpeed g)
                     (Vector3.y gp) (Vector3.z gp)))
  /\ (forall (g : CycleGrid.t) (gp : Vector3.t),
         CycleGrid.group g = Some gp ->
         length (CycleGrid.aliens g) <> 0%nat ->
         (CycleGrid.dropCount g < CycleGrid.maxDrops)%nat ->
         option_map Vector3.x (CycleGrid.group (snd (CycleGrid.update deltaTime g)))
         = Some (Vector3.x gp
                 + inject_Z (CycleGrid.direction g) * CycleGrid.moveSpeed g)%Q)
  /\ (forall (other : Q) (now : Z) (targets : list Target) (s : ShootingSystem.t),
         ShootingSystem.update deltaTime now targets s
         = ShootingSystem.update other now targets s)
  /\ (forall p : ShootingSystem.Projectile,
         Vector3.equiv
           (Vector3.sub (ShootingSystem.position (ShootingSystem.advance p))
                        (ShootingSystem.position p))
           (Vector3.multiplyScalar (ShootingSystem.direction p)
                                   ShootingSystem.projectileSpeed))
  /\ (forall (now : Z) (targets : list Target) (s : ShootingSystem.t)
             (p : ShootingSystem.Projectile),
         In p (ShootingSystem.projectiles s) ->
         ShootingSystem.isActive p = true ->
         now - ShootingSystem.createdAt p <= 2000 ->
         ShootingSystem.firstHit (ShootingSystem.advance p) targets = None ->
         In (ShootingSystem.advance p)
            (ShootingSystem.projectiles
               (snd (ShootingSystem.update deltaTime now targets s)))).
Proof.
  split; [|split; [|split; [|split]]].
  - intros g gp Hgroup Haliens. unfold BoundaryGrid.update.
    rewrite Hgroup, (nonempty_length _ Haliens).
    destruct (BoundaryGrid.needsToChangeDirection g); reflexivity.
  - intros g gp Hgroup Haliens Hdrops. unfold CycleGrid.update.
    rewrite Hgroup, (nonempty_length _ Haliens).
    destruct (Nat.leb_spec CycleGrid.maxDrops (CycleGrid.dropCount g)) as [Hle|_];
      [lia|].
    destruct (CycleGrid.reachedLimit g); reflexivity.
  - intros other now targets s. apply update_ignores_deltaTime.
  - apply advance_displacement.
  - intros now targets s p Hin Hact Hage Hfar.
    rewrite update_spec. cbn [snd ShootingSystem.projectiles].
    unfold survivors. apply list_elem_of_In, list_elem_of_omap.
    exists p. split; [apply list_elem_of_In; exact Hin|].
    unfold kept, outcome. rewrite Hact. cbn [negb].
    change (ShootingSystem.createdAt (ShootingSystem.advance p))
      with (ShootingSystem.createdAt p).
    change ShootingSystem.projectileLifetime with 2000.
    destruct (Z.ltb_spec 2000 (now - ShootingSystem.createdAt p)) as [Hlt|_];
      [lia|].
    now rewrite Hfar.
Qed.

Lemma motion_per_tick_witness :
  let g := cycleWave1 noPhase in
  let b := boundaryNarrowed in
  option_map Vector3.x (CycleGrid.group (snd (@CycleGrid.update flat (1 # 60) g)))
  = Some (0 + inject_Z (CycleGrid.direction g) * CycleGrid.moveSpeed g)%Q
  /\ BoundaryGrid.needsToChangeDirection b = false
  /\ BoundaryGrid.group (snd (@BoundaryGrid.update flat 7 b))
     = Some (Vector3.mk
               (0 + inject_Z (BoundaryGrid.direction b) * BoundaryGrid.moveSpeed b)
               0 0)
  /\ (forall p, In p (ShootingSystem.projectiles oneShot) ->
                In (ShootingSystem.advance p)
                   (ShootingSystem.projectiles
                      (snd (ShootingSystem.update (1 # 60) 1016 [] oneShot)))).
Proof.
  cbv zeta.
  destruct (@motion_per_tick flat (1 # 60)) as (_ & HC & _ & _ & HP).
  destruct (@motion_per_tick flat 7) as (HB & _).
  assert (Hstraight : BoundaryGrid.needsToChangeDirection boundaryNarrowed = false)
    by (vm_compute; reflexivity).
  split; [|split; [|split]].
  - apply (HC (cycleWave1 noPhase) (Vector3.mk 0 0 0)).
    + reflexivity.
    + vm_compute. discriminate.
    + vm_compute. lia.
  - exact Hstraight.
  - rewrite (HB boundaryNarrowed (Vector3.mk 0 0 0)).
    + rewrite Hstraight. reflexivity.
    + vm_compute. reflexivity.
    + vm_compute. discriminate.
  - intros p Hin. apply HP.
    + exact Hin.
    + destruct Hin as [<-|[]]. reflexivity.
    + destruct Hin as [<-|[]]. vm_compute. discriminate.
    + reflexivity.
Defined.

(** *** HUD *)

(** C3 (combo scoring), at the inputs where the claim fails.  The first hit
    of a game is scored while the combo count is 0, and adds 10 points, not
    10 x min(0, 5) = 0.  Read with the count that includes the hit itself,
    the claim fails at the second hit, which adds 10 points, not
    10 x min(2, 5) = 20. *)
Lemma first_hit_scores_its_points :
  let h1 := HUD.addScore 1000 10 HUD.new in
  let h2 := HUD.addScore 1100 10 h1 in
  HUD.comboCount HUD.new = 0
  /\ HUD.targetScore h1 - HUD.targetScore HUD.new
     <> 10 * Z.min (HUD.comboCount HUD.new) 5
  /\ HUD.comboCount h2 = 2
  /\ HUD.targetScore h2 - HUD.targetScore h1
     <> 10 * Z.min (HUD.comboCount h2) 5.
Proof. cbv zeta. repeat split; vm_compute; congruence. Qed.

(** C3 (combo scoring), as the code has it.  A hit adds
    [points x max(1, min(c, 5))] to the score, where [c] is the combo count
    before the hit is counted; the hit then raises the combo count by one and
    replaces the pending reset by one due 2000 ms later.  With no further
    hit, that reset runs once the 2000 ms have passed and sets the combo
    count to 0; before that it does not run. *)
Theorem combo_scoring (now points : Z) (h : HUD.t) :
  let h' := HUD.addScore now points h in
  HUD.targetScore h'
  = HUD.targetScore h + points * Z.max 1 (Z.min (HUD.comboCount h) 5)
  /\ HUD.comboCount h' = HUD.comboCount h + 1
  /\ HUD.comboTimer h' = Some (now + 2000)
  /\ (forall later, now + 2000 <= later ->
                    HUD.comboCount (HUD.timerTick later h') = 0)
  /\ (forall later, later < now + 2000 -> HUD.timerTick later h' = h').
Proof.
  cbv zeta. repeat split.
  - intros later Hdue. unfold HUD.timerTick. cbn.
    change HUD.comboTimeout with 2000.
    destruct (Z.leb_spec (now + 2000) later) as [_|Hlt]; [reflexivity | lia].
  - intros later Hearly. unfold HUD.timerTick. cbn.
    change HUD.comboTimeout with 2000.
    destruct (Z.leb_spec (now + 2000) later) as [Hle|_]; [lia | reflexivity].
Qed.

Lemma combo_scoring_witness :
  let h1 := HUD.addScore 1000 10 HUD.new in
  HUD.comboCount (HUD.timerTick 3000 h1) = 0
  /\ HUD.timerTick 2999 h1 = h1.
Proof.
  cbv zeta.
  destruct (combo_scoring 1000 10 HUD.new) as (_ & _ & _ & Hreset & Hkeep).
  split; [apply Hreset | apply Hkeep]; lia.
Defined.

(** *** GameManager *)

(** C2 (one increment per cleared wave), at the input where the code departs
    from it.  A game is started at wave 1 and every alien of the wave is
    hit.  The next frame finds the wave cleared, raises the wave number to 2
    and schedules the spawn for 1500 ms later.  The frame after it, 16 ms
    later, finds the wave still cleared, because the spawn is not yet due,
    and raises the wave number again, to 3, scheduling a second spawn.  This
    holds with either variant of the grid. *)
Theorem wave_incremented_every_frame {M : Math} (phase : nat -> nat -> Q)
        (deltaTime : Q) :
  (let gm0 : GameManager.t CycleGrid.t := clearedGame phase in
   let gm1 := GameManager.gameLoop 5016 deltaTime phase gm0 in
   let gm2 := GameManager.gameLoop 5032 deltaTime phase gm1 in
   GameManager.isPlaying gm0 = true
   /\ GameManager.wave gm0 = 1
   /\ GameManager.aliensKilled gm0 = 55
   /\ CycleGrid.isWaveCleared (GameManager.alienGrid gm0) = true
   /\ GameManager.wave gm1 = 2
   /\ GameManager.spawnTimers gm1 = [6516]
   /\ GameManager.wave (GameManager.spawnTimerTick 5032 phase gm1) = 2
   /\ CycleGrid.isWaveCleared (GameManager.alienGrid gm1) = true
   /\ GameManager.wave gm2 = 3
   /\ GameManager.spawnTimers gm2 = [6516; 6532])
  /\ (let gm0 : GameManager.t BoundaryGrid.t := clearedGame phase in
      let gm1 := GameManager.gameLoop 5016 deltaTime phase gm0 in
      let gm2 := GameManager.gameLoop 5032 deltaTime phase gm1 in
      GameManager.isPlaying gm0 = true
      /\ GameManager.wave gm0 = 1
      /\ GameManager.aliensKilled gm0 = 55
      /\ BoundaryGrid.isWaveCleared (GameManager.alienGrid gm0) = true
      /\ GameManager.wave gm1 = 2
      /\ GameManager.spawnTimers gm1 = [6516]
      /\ GameManager.wave (GameManager.spawnTimerTick 5032 phase gm1) = 2
      /\ BoundaryGrid.isWaveCleared (GameManager.alienGrid gm1) = true
      /\ GameManager.wave gm2 = 3
      /\ GameManager.spawnTimers gm2 = [6516; 6532]).
Proof.
  split; cbv zeta; repeat split; vm_compute; reflexivity.
Qed.

(** ** Further properties of the engine *)

(** *** ShootingSystem *)

(** The backwards index loop of [update], which removes projectiles from the
    array while it walks it, treats every projectile on its own: the
    projectiles left in the list are the kept ones in their original order,
    and the hits are listed from the last projectile of the list to the
    first. *)
Theorem update_per_projectile (deltaTime : Q) (now : Z) (targets : list Target)
        (s : ShootingSystem.t) :
  fst (ShootingSystem.update deltaTime now targets s)
  = rev (recordedHits now targets (ShootingSystem.projectiles s))
  /\ ShootingSystem.projectiles (snd (ShootingSystem.update deltaTime now targets s))
     = survivors now targets (ShootingSystem.projectiles s)
  /\ ShootingSystem.lastShotTime (snd (ShootingSystem.update deltaTime now targets s))
     = ShootingSystem.lastShotTime s.
Proof.
  rewrite update_spec. cbn [fst snd ShootingSystem.projectiles
                              ShootingSystem.lastShotTime].
  split; [|split; reflexivity].
  unfold recordedHits.
  induction (ShootingSystem.projectiles s) as [|p l IH]; [reflexivity|].
  cbn [rev]. rewrite omap_app, IH.
  change (omap ?f (p :: l))
    with (match f p with Some t => t :: omap f l | None => omap f l end).
  change (omap ?f [p]) with (match f p with Some t => [t] | None => [] end).
  destruct (recorded now targets p); cbn [rev]; [reflexivity|].
  now rewrite app_nil_r.
Qed.

(** What a recorded hit says about the projectile that recorded it. *)
Lemma recorded_inv (now : Z) (targets : list Target)
      (p : ShootingSystem.Projectile) (target : Target) :
  recorded now targets p = Some target ->
  ShootingSystem.isActive p = true
  /\ now - ShootingSystem.createdAt p <= 2000
  /\ ShootingSystem.firstHit (ShootingSystem.advance p) targets = Some target.
Proof.
  unfold recorded, outcome.
  destruct (ShootingSystem.isActive p); cbn [negb]; [|discriminate].
  change (ShootingSystem.createdAt (ShootingSystem.advance p))
    with (ShootingSystem.createdAt p).
  change ShootingSystem.projectileLifetime with 2000.
  destruct (Z.ltb_spec 2000 (now - ShootingSystem.createdAt p)) as [|Hage];
    [discriminate|].
  destruct (ShootingSystem.firstHit _ _) as [t|]; [|discriminate].
  intros [= ->]. repeat split. exact Hage.
Qed.

(** Every hit [update] returns is one of the targets it was given, is alive,
    and was recorded by an active projectile within its lifetime whose
    advanced position is closer to the target than the hit radius. *)
Theorem hits_are_live_targets_in_range (deltaTime : Q) (now : Z)
        (targets : list Target) (s : ShootingSystem.t) (target : Target) :
  In target (fst (ShootingSystem.update deltaTime now targets s)) ->
  In target targets
  /\ target_isAlive target = true
  /\ exists p, In p (ShootingSystem.projectiles s)
               /\ ShootingSystem.isActive p = true
               /\ now - ShootingSystem.createdAt p <= 2000
               /\ Vector3.closerThan
                    (ShootingSystem.position (ShootingSystem.advance p))
                    (target_worldPosition target)
                    ShootingSystem.hitRadius = true.
Proof.
  rewrite update_spec. cbn [fst]. unfold recordedHits. intros Hin.
  apply list_elem_of_In, list_elem_of_omap in Hin.
  destruct Hin as (p & Hp & Hrec).
  apply list_elem_of_In, in_rev in Hp.
  apply recorded_inv in Hrec. destruct Hrec as (Hact & Hage & Hfirst).
  unfold ShootingSystem.firstHit in Hfirst. apply find_some in Hfirst.
  destruct Hfirst as [Hmem Hcol].
  unfold ShootingSystem.collides in Hcol. apply andb_true_iff in Hcol.
  destruct Hcol as [Halive Hnear].
  split; [exact Hmem|]. split; [exact Halive|].
  exists p. repeat split; assumption.
Qed.

Lemma hits_are_live_targets_in_range_witness :
  In nearTarget [nearTarget]
  /\ target_isAlive nearTarget = true
  /\ exists p, In p (ShootingSystem.projectiles twoShots)
               /\ ShootingSystem.isActive p = true
               /\ 1216 - ShootingSystem.createdAt p <= 2000
               /\ Vector3.closerThan
                    (ShootingSystem.position (ShootingSystem.advance p))
                    (target_worldPosition nearTarget)
                    ShootingSystem.hitRadius = true.
Proof.
  apply (hits_are_live_targets_in_range (1 # 60) 1216 [nearTarget] twoShots).
  vm_compute. left. reflexivity.
Defined.

(** A tick never adds a projectile, and every projectile accounts for at
    most one entry: the hits and the projectiles left over are together no
    more than the projectiles before the tick. *)
Theorem tick_conserves_projectiles (deltaTime : Q) (now : Z)
        (targets : list Target) (s : ShootingSystem.t) :
  (length (fst (ShootingSystem.update deltaTime now targets s))
   + length (ShootingSystem.projectiles
               (snd (ShootingSystem.update deltaTime now targets s)))
   <= length (ShootingSystem.projectiles s))%nat.
Proof.
  rewrite update_spec. cbn [fst snd ShootingSystem.projectiles].
  unfold recordedHits, survivors.
  rewrite <- (length_rev (ShootingSystem.projectiles s)).
  assert (Hperm : forall l : list ShootingSystem.Projectile,
             length (omap (kept now targets) l)
             = length (omap (kept now targets) (rev l))).
  { intros l. induction l as [|p l IH]; [reflexivity|].
    cbn [rev]. rewrite omap_app, length_app, <- IH.
    change (omap ?f (p :: l))
      with (match f p with Some t => t :: omap f l | None => omap f l end).
    change (omap ?f [p]) with (match f p with Some t => [t] | None => [] end).
    destruct (kept now targets p); cbn [length]; lia. }
  rewrite Hperm.
  induction (rev (ShootingSystem.projectiles s)) as [|p l IH]; [reflexivity|].
  change (omap ?f (p :: l))
    with (match f p with Some t => t :: omap f l | None => omap f l end).
  unfold kept at 1, recorded at 1.
  destruct (outcome now targets p); cbn [length]; lia.
Qed.

(** Only an active projectile is kept in a changed form, and it stays
    active. *)
Lemma kept_active (now : Z) (targets : list Target)
      (p q : ShootingSystem.Projectile) :
  ShootingSystem.isActive p = true ->
  kept now targets p = Some q -> ShootingSystem.isActive q = true.
Proof.
  intros Hact. unfold kept, outcome. rewrite Hact. cbn [negb].
  destruct (ShootingSystem.projectileLifetime <? _); [discriminate|].
  destruct (ShootingSystem.firstHit _ _); [discriminate|].
  intros [= <-]. exact Hact.
Qed.

(** The list only ever holds active projectiles: if it does before a call of
    [shoot] or [update], it does after it.  The constructor starts with the
    empty list, so the [isActive] test at the top of the loop of [update]
    never skips a projectile. *)
Theorem projectiles_stay_active (s : ShootingSystem.t) :
  Forall (fun p => ShootingSystem.isActive p = true) (ShootingSystem.projectiles s) ->
  (forall now camera,
      Forall (fun p => ShootingSystem.isActive p = true)
             (ShootingSystem.projectiles (snd (ShootingSystem.shoot now camera s))))
  /\ (forall deltaTime now targets,
         Forall (fun p => ShootingSystem.isActive p = true)
                (ShootingSystem.projectiles
                   (snd (ShootingSystem.update deltaTime now targets s)))).
Proof.
  intros Hall. split.
  - intros now camera. unfold ShootingSystem.shoot.
    destruct (now - ShootingSystem.lastShotTime s <? ShootingSystem.cooldown);
      cbn [snd ShootingSystem.projectiles]; [exact Hall|].
    apply Forall_app. split; [exact Hall|].
    constructor; [reflexivity | constructor].
  - intros deltaTime now targets. rewrite update_spec.
    cbn [snd ShootingSystem.projectiles]. unfold survivors.
    rewrite List.Forall_forall in *. intros q Hq.
    apply list_elem_of_In, list_elem_of_omap in Hq.
    destruct Hq as (p & Hp & Hkept).
    apply list_elem_of_In in Hp.
    exact (kept_active now targets p q (Hall p Hp) Hkept).
Qed.

Lemma projectiles_stay_active_witness :
  Forall (fun p => ShootingSystem.isActive p = true)
         (ShootingSystem.projectiles
            (snd (ShootingSystem.shoot 1200 frontCamera oneShot)))
  /\ Forall (fun p => ShootingSystem.isActive p = true)
            (ShootingSystem.projectiles
               (snd (ShootingSystem.update (1 # 60) 1016 [nearTarget] oneShot))).
Proof.
  assert (Hone : Forall (fun p => ShootingSystem.isActive p = true)
                        (ShootingSystem.projectiles oneShot)).
  { constructor; [reflexivity | constructor]. }
  destruct (projectiles_stay_active oneShot Hone) as [Hshoot Hupdate].
  split; [apply Hshoot | apply Hupdate].
Defined.

(** Removing the projectiles one by one, from the last index down to 0,
    leaves none. *)
Lemma remove_all_from_the_end (l : list ShootingSystem.Projectile) :
  fold_left (fun ps i => ShootingSystem.removeProjectile i ps)
            (rev (seq 0 (length l))) l = [].
Proof.
  induction l as [|p l IH] using rev_ind; [reflexivity|].
  rewrite length_app, Nat.add_comm. cbn [length Nat.add].
  rewrite seq_S, rev_app_distr. cbn [rev app Nat.add fold_left].
  unfold ShootingSystem.removeProjectile at 2.
  rewrite delete_middle, app_nil_r. exact IH.
Qed.

(** [clear()] leaves no projectile, whatever the list held, and keeps the
    time of the last shot: a shot right after [clear()] is still subject to
    the cooldown.  Calling it again changes nothing. *)
Theorem clear_removes_every_projectile (s : ShootingSystem.t) :
  ShootingSystem.projectiles (ShootingSystem.clear s) = []
  /\ ShootingSystem.lastShotTime (ShootingSystem.clear s)
     = ShootingSystem.lastShotTime s
  /\ ShootingSystem.clear (ShootingSystem.clear s) = ShootingSystem.clear s
  /\ (forall deltaTime now targets,
         ShootingSystem.update deltaTime now targets (ShootingSystem.clear s)
         = ([], ShootingSystem.clear s)).
Proof.
  assert (Hclear : ShootingSystem.clear s
                   = {| ShootingSystem.lastShotTime := ShootingSystem.lastShotTime s;
                        ShootingSystem.projectiles := [] |}).
  { unfold ShootingSystem.clear. now rewrite remove_all_from_the_end. }
  rewrite Hclear. repeat split.
Qed.

(** A call of [shoot] at least 200 ms after the last accepted shot is
    accepted: it returns true, records the time, and appends exactly one
    active projectile, created at that time, that flies along the camera's
    forward direction from half a unit in front of the camera and 0.2 below
    it.  Every further call less than 200 ms after it is rejected. *)
Theorem shoot_after_cooldown (now : Z) (camera : ShootingSystem.Camera)
        (s : ShootingSystem.t) :
  200 <= now - ShootingSystem.lastShotTime s ->
  exists p,
    ShootingSystem.shoot now camera s
    = (true, {| ShootingSystem.lastShotTime := now;
                ShootingSystem.projectiles := ShootingSystem.projectiles s ++ [p] |})
    /\ ShootingSystem.isActive p = true
    /\ ShootingSystem.createdAt p = now
    /\ ShootingSystem.direction p = ShootingSystem.camera_forward camera
    /\ Vector3.equiv
         (Vector3.sub (ShootingSystem.position p)
                      (ShootingSystem.camera_position camera))
         (Vector3.sub
            (Vector3.multiplyScalar (ShootingSystem.camera_forward camera) (1 # 2))
            (Vector3.mk 0 (2 # 10) 0))
    /\ (forall later camera',
           later - now < 200 ->
           fst (ShootingSystem.shoot later camera'
                  (snd (ShootingSystem.shoot now camera s))) = false).
Proof.
  intros Hready. unfold ShootingSystem.shoot at 1 3.
  change ShootingSystem.cooldown with 200.
  destruct (Z.ltb_spec (now - ShootingSystem.lastShotTime s) 200) as [Hlt|_];
    [lia|].
  eexists. split; [reflexivity|].
  split; [reflexivity|]. split; [reflexivity|]. split; [reflexivity|].
  split.
  - unfold Vector3.equiv. cbn. repeat split; ring.
  - intros later camera' Hsoon. unfold ShootingSystem.shoot.
    cbn [snd ShootingSystem.lastShotTime].
    change ShootingSystem.cooldown with 200.
    destruct (Z.ltb_spec (later - now) 200) as [_|Hge]; [reflexivity | lia].
Qed.

Lemma shoot_after_cooldown_witness :
  exists p,
    ShootingSystem.shoot 1200 frontCamera oneShot
    = (true, {| ShootingSystem.lastShotTime := 1200;
                ShootingSystem.projectiles :=
                  ShootingSystem.projectiles oneShot ++ [p] |})
    /\ ShootingSystem.createdAt p = 1200.
Proof.
  destruct (shoot_after_cooldown 1200 frontCamera oneShot) as (p & Hshoot & _ & Hat & _).
  - vm_compute. discriminate.
  - exists p. split; [exact Hshoot | exact Hat].
Defined.

(** The lifetime test comes before the collision test: in a tick in which
    every projectile is active and older than 2000 ms, no hit is recorded,
    whatever the targets are, and no projectile is left. *)
Theorem expired_projectiles_never_hit (deltaTime : Q) (now : Z)
        (targets : list Target) (s : ShootingSystem.t) :
  (forall p, In p (ShootingSystem.projectiles s) ->
             ShootingSystem.isActive p = true
             /\ 2000 < now - ShootingSystem.createdAt p) ->
  ShootingSystem.update deltaTime now targets s
  = ([], {| ShootingSystem.lastShotTime := ShootingSystem.lastShotTime s;
            ShootingSystem.projectiles := [] |}).
Proof.
  intros Hold.
  assert (Hout : forall p, In p (ShootingSystem.projectiles s) ->
                           outcome now targets p = Expired).
  { intros p Hp. destruct (Hold p Hp) as [Hact Hage].
    unfold outcome. rewrite Hact. cbn [negb].
    change (ShootingSystem.createdAt (ShootingSystem.advance p))
      with (ShootingSystem.createdAt p).
    change ShootingSystem.projectileLifetime with 2000.
    destruct (Z.ltb_spec 2000 (now - ShootingSystem.createdAt p)); [reflexivity|lia]. }
  rewrite update_spec. f_equal.
  - apply recordedHits_none. intros p Hp. apply in_rev in Hp.
    unfold recorded. now rewrite (Hout p Hp).
  - f_equal. unfold survivors.
    induction (ShootingSystem.projectiles s) as [|p l IH]; [reflexivity|].
    change (omap ?f (p :: l))
      with (match f p with Some q => q :: omap f l | None => omap f l end).
    unfold kept at 1. rewrite (Hout p (or_introl eq_refl)).
    apply IH.
    + intros q Hq. apply Hold. right; exact Hq.
    + intros q Hq. apply Hout. right; exact Hq.
Qed.

Lemma expired_projectiles_never_hit_witness :
  ShootingSystem.update (1 # 60) 3216
    [mkTarget (4%nat, 5%nat) true (Vector3.mk 0 (-2 # 10) 4)] twoShots
  = ([], {| ShootingSystem.lastShotTime := 1200;
            ShootingSystem.projectiles := [] |}).
Proof.
  apply (expired_projectiles_never_hit (1 # 60) 3216 _ twoShots).
  intros p [<-|[<-|[]]]; split; try reflexivity; vm_compute; reflexivity.
Defined.

(** *** The rows of the grid *)

Lemma aliveCount_app (rows1 rows2 : Rows.t) :
  Rows.getAliveCount (rows1 ++ rows2)
  = (Rows.getAliveCount rows1 + Rows.getAliveCount rows2)%nat.
Proof.
  unfold Rows.getAliveCount, Rows.getAliveAliens.
  now rewrite concat_app, List.filter_app, length_app.
Qed.

Lemma aliveCount_cons (row : list Alien.t) (rows : Rows.t) :
  Rows.getAliveCount (row :: rows)
  = (length (List.filter Alien.isAlive row) + Rows.getAliveCount rows)%nat.
Proof.
  unfold Rows.getAliveCount, Rows.getAliveAliens.
  cbn [List.concat]. now rewrite List.filter_app, length_app.
Qed.

Lemma row_kill (row : list Alien.t) :
  forall (j : nat) (a : Alien.t),
    row !! j = Some a ->
    Alien.isAlive a = true ->
    S (length (List.filter Alien.isAlive (<[j := Alien.kill a]> row)))
    = length (List.filter Alien.isAlive row).
Proof.
  induction row as [|b row IH]; intros [|j] a Hat Halive;
    try discriminate.
  - cbn in Hat. injection Hat as ->.
    cbn [list_insert insert List.filter]. rewrite Halive.
    cbn [Alien.kill Alien.isAlive length]. reflexivity.
  - cbn in Hat. change (<[S j := Alien.kill a]> (b :: row))
      with (b :: <[j := Alien.kill a]> row).
    cbn [List.filter].
    destruct (Alien.isAlive b); cbn [length]; rewrite <- (IH j a Hat Halive);
      reflexivity.
Qed.

Lemma rows_replace_row (rows : Rows.t) :
  forall (i : nat) (row row' : list Alien.t),
    rows !! i = Some row ->
    S (length (List.filter Alien.isAlive row'))
    = length (List.filter Alien.isAlive row) ->
    S (Rows.getAliveCount (<[i := row']> rows)) = Rows.getAliveCount rows.
Proof.
  induction rows as [|r rows IH]; intros [|i] row row' Hat Hrow;
    try discriminate.
  - cbn in Hat. injection Hat as ->.
    change (<[0%nat := row']> (row :: rows)) with (row' :: rows).
    rewrite !aliveCount_cons. lia.
  - cbn in Hat. change (<[S i := row']> (r :: rows)) with (r :: <[i := row']> rows).
    pose proof (IH i row row' Hat Hrow) as E.
    rewrite !aliveCount_cons, <- E. symmetry. apply Nat.add_succ_r.
Qed.

(** Replacing a live alien by its killed copy lowers the live count by
    one. *)
Lemma aliveCount_kill (alien : AlienRef) (a : Alien.t) (rows : Rows.t) :
  Rows.at_ref alien rows = Some a ->
  Alien.isAlive a = true ->
  S (Rows.getAliveCount (Rows.set_ref alien (Alien.kill a) rows))
  = Rows.getAliveCount rows.
Proof.
  destruct alien as [i j]. unfold Rows.at_ref, Rows.set_ref. cbn [fst snd].
  destruct (rows !! i) as [row|] eqn:Hrow; [|discriminate].
  intros Hcol Halive.
  apply (rows_replace_row rows i row _ Hrow).
  apply row_kill; assumption.
Qed.

Lemma at_ref_set_same (alien : AlienRef) (a b : Alien.t) (rows : Rows.t) :
  Rows.at_ref alien rows = Some a ->
  Rows.at_ref alien (Rows.set_ref alien b rows) = Some b.
Proof.
  destruct alien as [i j]. unfold Rows.at_ref, Rows.set_ref, Rows.t in *.
  cbn [fst snd].
  destruct (rows !! i) as [row|] eqn:Hrow; [|discriminate].
  intros Hcol.
  rewrite list_lookup_insert_eq by (eapply lookup_lt_Some; exact Hrow).
  apply list_lookup_insert_eq. eapply lookup_lt_Some; exact Hcol.
Qed.

Lemma at_ref_set_other (alien other : AlienRef) (b : Alien.t) (rows : Rows.t) :
  other <> alien ->
  Rows.at_ref other (Rows.set_ref alien b rows) = Rows.at_ref other rows.
Proof.
  destruct alien as [i j], other as [i' j'].
  unfold Rows.at_ref, Rows.set_ref, Rows.t in *. cbn [fst snd]. intros Hne.
  destruct (rows !! i) as [row|] eqn:Hrow; [|reflexivity].
  destruct (Nat.eq_dec i' i) as [->|Hi].
  - rewrite list_lookup_insert_eq by (eapply lookup_lt_Some; exact Hrow).
    rewrite Hrow. apply list_lookup_insert_ne. congruence.
  - now rewrite list_lookup_insert_ne by congruence.
Qed.

(** *** AlienGrid *)

(** Destroying a live alien, in both variants: the call returns the alien's
    points, the alien is dead and hidden afterwards, every other alien is as
    it was, the live count has gone down by exactly one, and a second call on
    the same alien returns 0 and changes nothing. *)
Theorem destroyAlien_live (alien : AlienRef) (a : Alien.t) :
  Alien.isAlive a = true ->
  (forall g : BoundaryGrid.t,
      Rows.at_ref alien (BoundaryGrid.aliens g) = Some a ->
      exists g',
        BoundaryGrid.destroyAlien alien g = Some (Alien.points a, g')
        /\ Rows.at_ref alien (BoundaryGrid.aliens g') = Some (Alien.kill a)
        /\ (forall other, other <> alien ->
                          Rows.at_ref other (BoundaryGrid.aliens g')
                          = Rows.at_ref other (BoundaryGrid.aliens g))
        /\ S (BoundaryGrid.getAliveCount g') = BoundaryGrid.getAliveCount g
        /\ BoundaryGrid.destroyAlien alien g' = Some (0, g'))
  /\ (forall g : CycleGrid.t,
         Rows.at_ref alien (CycleGrid.aliens g) = Some a ->
         exists g',
           CycleGrid.destroyAlien alien g = Some (Alien.points a, g')
           /\ Rows.at_ref alien (CycleGrid.aliens g') = Some (Alien.kill a)
           /\ (forall other, other <> alien ->
                             Rows.at_ref other (CycleGrid.aliens g')
                             = Rows.at_ref other (CycleGrid.aliens g))
           /\ S (CycleGrid.getAliveCount g') = CycleGrid.getAliveCount g
           /\ CycleGrid.destroyAlien alien g' = Some (0, g')).
Proof.
  intros Halive. split; intros g Hat.
  - unfold BoundaryGrid.destroyAlien at 1. rewrite Hat, Halive. cbn [negb].
    eexists. split; [reflexivity|].
    cbn [BoundaryGrid.aliens].
    split; [eapply at_ref_set_same; exact Hat|].
    split; [intros other Hne; apply at_ref_set_other; exact Hne|].
    split; [apply (aliveCount_kill alien a _ Hat Halive)|].
    unfold BoundaryGrid.destroyAlien. cbn [BoundaryGrid.aliens].
    rewrite (at_ref_set_same alien a _ _ Hat). reflexivity.
  - unfold CycleGrid.destroyAlien at 1. rewrite Hat, Halive. cbn [negb].
    eexists. split; [reflexivity|].
    cbn [CycleGrid.aliens].
    split; [eapply at_ref_set_same; exact Hat|].
    split; [intros other Hne; apply at_ref_set_other; exact Hne|].
    split; [apply (aliveCount_kill alien a _ Hat Halive)|].
    unfold CycleGrid.destroyAlien. cbn [CycleGrid.aliens].
    rewrite (at_ref_set_same alien a _ _ Hat). reflexivity.
Qed.

Lemma destroyAlien_live_witness :
  exists g',
    BoundaryGrid.destroyAlien (0%nat, 0%nat) (boundaryWave1 noPhase) = Some (30, g')
    /\ S (BoundaryGrid.getAliveCount g') = 55%nat
    /\ BoundaryGrid.destroyAlien (0%nat, 0%nat) g' = Some (0, g').
Proof.
  edestruct (destroyAlien_live (0%nat, 0%nat)) as [HB _]; [|].
  2: { edestruct (HB (boundaryWave1 noPhase)) as (g' & Hd & _ & _ & Hc & Hi).
       - vm_compute. reflexivity.
       - exists g'. split; [exact Hd|]. split; [exact Hc | exact Hi]. }
  reflexivity.
Defined.

(** The sweep speed after a kill, in both variants.  While live aliens
    remain, the speed is set to
    [baseSpeed x speedMultiplier x (1 + (55 - remaining) x 0.02)] and the wave
    is not cleared; destroying the last live alien clears the wave and leaves
    the speed as it was. *)
Theorem destroyAlien_speed_and_clearance (alien : AlienRef) (a : Alien.t) :
  Alien.isAlive a = true ->
  (forall (g g' : BoundaryGrid.t) (points : Z),
      Rows.at_ref alien (BoundaryGrid.aliens g) = Some a ->
      BoundaryGrid.destroyAlien alien g = Some (points, g') ->
      (BoundaryGrid.getAliveCount g = 1%nat ->
       BoundaryGrid.isWaveCleared g' = true
       /\ BoundaryGrid.moveSpeed g' = BoundaryGrid.moveSpeed g)
      /\ ((1 < BoundaryGrid.getAliveCount g)%nat ->
          BoundaryGrid.isWaveCleared g' = false
          /\ BoundaryGrid.moveSpeed g'
             = (BoundaryGrid.baseSpeed * BoundaryGrid.speedMultiplier g
                * (1 + (55 - inject_Z (Z.of_nat (BoundaryGrid.getAliveCount g')))
                       * (2 # 100)))%Q))
  /\ (forall (g g' : CycleGrid.t) (points : Z),
         Rows.at_ref alien (CycleGrid.aliens g) = Some a ->
         CycleGrid.destroyAlien alien g = Some (points, g') ->
         (CycleGrid.getAliveCount g = 1%nat ->
          CycleGrid.isWaveCleared g' = true
          /\ CycleGrid.moveSpeed g' = CycleGrid.moveSpeed g)
         /\ ((1 < CycleGrid.getAliveCount g)%nat ->
             CycleGrid.isWaveCleared g' = false
             /\ CycleGrid.moveSpeed g'
                = (CycleGrid.baseSpeed * CycleGrid.speedMultiplier g
                   * (1 + (55 - inject_Z (Z.of_nat (CycleGrid.getAliveCount g')))
                          * (2 # 100)))%Q)).
Proof.
  intros Halive. split; intros g g' points Hat Hdestroy.
  - pose proof (aliveCount_kill alien a _ Hat Halive) as Hcount.
    unfold BoundaryGrid.destroyAlien in Hdestroy.
    rewrite Hat, Halive in Hdestroy. cbn [negb] in Hdestroy.
    injection Hdestroy as _ <-.
    unfold BoundaryGrid.isWaveCleared, BoundaryGrid.getAliveCount,
      BoundaryGrid.getAliveAliens.
    cbn [BoundaryGrid.aliens BoundaryGrid.moveSpeed].
    fold (Rows.getAliveCount (Rows.set_ref alien (Alien.kill a) (BoundaryGrid.aliens g))).
    fold (Rows.getAliveCount (BoundaryGrid.aliens g)).
    destruct (Rows.getAliveCount (Rows.set_ref alien (Alien.kill a) (BoundaryGrid.aliens g)))
      as [|k] eqn:Hk.
    + split; [intros _; split; reflexivity | intros Hmany; lia].
    + split; [intros Hone; lia | intros _; split; reflexivity].
  - pose proof (aliveCount_kill alien a _ Hat Halive) as Hcount.
    unfold CycleGrid.destroyAlien in Hdestroy.
    rewrite Hat, Halive in Hdestroy. cbn [negb] in Hdestroy.
    injection Hdestroy as _ <-.
    unfold CycleGrid.isWaveCleared, CycleGrid.getAliveCount,
      CycleGrid.getAliveAliens.
    cbn [CycleGrid.aliens CycleGrid.moveSpeed].
    fold (Rows.getAliveCount (Rows.set_ref alien (Alien.kill a) (CycleGrid.aliens g))).
    fold (Rows.getAliveCount (CycleGrid.aliens g)).
    destruct (Rows.getAliveCount (Rows.set_ref alien (Alien.kill a) (CycleGrid.aliens g)))
      as [|k] eqn:Hk.
    + split; [intros _; split; reflexivity | intros Hmany; lia].
    + split; [intros Hone; lia | intros _; split; reflexivity].
Qed.

Lemma destroyAlien_speed_and_clearance_witness :
  BoundaryGrid.isWaveCleared boundaryOneKilled = false
  /\ BoundaryGrid.moveSpeed boundaryOneKilled
     = (BoundaryGrid.baseSpeed * BoundaryGrid.speedMultiplier (boundaryWave1 noPhase)
        * (1 + (55 - inject_Z (Z.of_nat (BoundaryGrid.getAliveCount boundaryOneKilled)))
               * (2 # 100)))%Q.
Proof.
  edestruct (destroyAlien_speed_and_clearance (0%nat, 0%nat)) as [HB _].
  2: { edestruct (HB (boundaryWave1 noPhase) boundaryOneKilled) as [_ Hmany].
       - vm_compute. reflexivity.
       - vm_compute. reflexivity.
       - apply Hmany. vm_compute. lia. }
  reflexivity.
Defined.

Lemma wiggle_keeps_data {M : Math} (time amount bounce : Q) (a : Alien.t) :
  alienData (Alien.wiggle time amount bounce a) = alienData a.
Proof. unfold Alien.wiggle. destruct (negb (Alien.isAlive a)); reflexivity. Qed.

Lemma lower_keeps_data (a : Alien.t) :
  alienData (CycleGrid.lower a) = alienData a.
Proof. unfold CycleGrid.lower. destruct (Alien.isAlive a); reflexivity. Qed.

Lemma map_rows_data (f : Alien.t -> Alien.t) (rows : Rows.t) :
  (forall a, alienData (f a) = alienData a) ->
  List.map (List.map alienData) (List.map (List.map f) rows)
  = List.map (List.map alienData) rows.
Proof.
  intros Hf. rewrite List.map_map. apply List.map_ext. intros row.
  rewrite List.map_map. apply List.map_ext. exact Hf.
Qed.

Lemma aliveCount_data (rows1 rows2 : Rows.t) :
  List.map (List.map alienData) rows1 = List.map (List.map alienData) rows2 ->
  Rows.getAliveCount rows1 = Rows.getAliveCount rows2.
Proof.
  revert rows2. induction rows1 as [|r1 rows1 IH]; intros [|r2 rows2] E;
    try discriminate; [reflexivity|].
  cbn [List.map] in E. injection E as Erow Erest.
  rewrite !aliveCount_cons, (IH rows2 Erest). f_equal.
  clear -Erow. revert r2 Erow.
  induction r1 as [|a r1 IHr]; intros [|b r2] E; try discriminate; [reflexivity|].
  cbn [List.map] in E.
  pose proof (f_equal (@tl _) E) as Er. cbn [tl] in Er.
  assert (Hab : Alien.isAlive a = Alien.isAlive b).
  { pose proof (f_equal (fun l => List.map (fun d => fst (fst (fst (fst (fst (fst d))))))
                                           (firstn 1 l)) E) as Ea.
    cbn in Ea. congruence. }
  cbn [List.filter].
  rewrite Hab. destruct (Alien.isAlive b); cbn [length]; now rewrite (IHr r2 Er).
Qed.

Lemma boundary_update_data {M : Math} (deltaTime : Q) (g : BoundaryGrid.t) :
  List.map (List.map alienData)
           (BoundaryGrid.aliens (snd (BoundaryGrid.update deltaTime g)))
  = List.map (List.map alienData) (BoundaryGrid.aliens g).
Proof.
  unfold BoundaryGrid.update.
  destruct (BoundaryGrid.group g); [|reflexivity].
  destruct (length (BoundaryGrid.aliens g) =? 0)%nat; [reflexivity|].
  cbn [snd BoundaryGrid.aliens].
  apply map_rows_data, wiggle_keeps_data.
Qed.

Lemma cycle_update_data {M : Math} (deltaTime : Q) (g : CycleGrid.t) :
  List.map (List.map alienData)
           (CycleGrid.aliens (snd (CycleGrid.update deltaTime g)))
  = List.map (List.map alienData) (CycleGrid.aliens g).
Proof.
  unfold CycleGrid.update.
  destruct (CycleGrid.group g); [|reflexivity].
  destruct (length (CycleGrid.aliens g) =? 0)%nat; [reflexivity|].
  destruct (CycleGrid.maxDrops <=? CycleGrid.dropCount g)%nat; [reflexivity|].
  cbn [snd CycleGrid.aliens].
  rewrite (map_rows_data _ _ (wiggle_keeps_data _ _ _)).
  destruct (CycleGrid.reachedLimit g); [|reflexivity].
  apply map_rows_data, lower_keeps_data.
Qed.

Lemma cycle_update_count {M : Math} (deltaTime : Q) (g : CycleGrid.t) :
  CycleGrid.getAliveCount (snd (CycleGrid.update deltaTime g))
  = CycleGrid.getAliveCount g.
Proof. apply aliveCount_data, cycle_update_data. Qed.

Lemma boundary_update_count {M : Math} (deltaTime : Q) (g : BoundaryGrid.t) :
  BoundaryGrid.getAliveCount (snd (BoundaryGrid.update deltaTime g))
  = BoundaryGrid.getAliveCount g.
Proof. apply aliveCount_data, boundary_update_data. Qed.

(** A call of [update] only moves and turns aliens, in both variants: the
    liveness, visibility, tier, points, animation phase and grid place of
    every alien are as before the call, so [update] neither kills nor revives
    an alien, and the live count and the answer of [isWaveCleared] do not
    change. *)
Theorem update_keeps_alien_data {M : Math} (deltaTime : Q) :
  (forall g : BoundaryGrid.t,
      let g' := snd (BoundaryGrid.update deltaTime g) in
      List.map (List.map alienData) (BoundaryGrid.aliens g')
      = List.map (List.map alienData) (BoundaryGrid.aliens g)
      /\ BoundaryGrid.getAliveCount g' = BoundaryGrid.getAliveCount g
      /\ BoundaryGrid.isWaveCleared g' = BoundaryGrid.isWaveCleared g)
  /\ (forall g : CycleGrid.t,
         let g' := snd (CycleGrid.update deltaTime g) in
         List.map (List.map alienData) (CycleGrid.aliens g')
         = List.map (List.map alienData) (CycleGrid.aliens g)
         /\ CycleGrid.getAliveCount g' = CycleGrid.getAliveCount g
         /\ CycleGrid.isWaveCleared g' = CycleGrid.isWaveCleared g).
Proof.
  split; intros g; cbv zeta.
  - split; [apply boundary_update_data|].
    unfold BoundaryGrid.isWaveCleared.
    rewrite boundary_update_count. split; reflexivity.
  - split; [apply cycle_update_data|].
    unfold CycleGrid.isWaveCleared.
    rewrite cycle_update_count. split; reflexivity.
Qed.

(** The running minimum over the live aliens is at or below a bound exactly
    when it started there or some live alien is there. *)
Lemma fold_min_le (f : Alien.t -> Q) (c : Q) (l : list Alien.t) :
  forall acc : option Q,
    match fold_left
            (fun acc a =>
               Some (match acc with None => f a | Some m => Qmin m (f a) end))
            l acc with
    | Some m => Qle_bool m c
    | None => false
    end = true
    <-> (match acc with Some m => (m <= c)%Q | None => False end
         \/ exists a, In a l /\ (f a <= c)%Q).
Proof.
  induction l as [|b l IH]; intros acc.
  - cbn [fold_left]. destruct acc as [m|].
    + rewrite Qle_bool_iff. split; [left; assumption|].
      intros [H|(a & [] & _)]. exact H.
    + split; [discriminate|]. intros [[]|(a & [] & _)].
  - cbn [fold_left]. rewrite IH. split.
    + intros [Hacc|(a & Ha & Hle)].
      * destruct acc as [m|].
        -- apply Q.min_le_iff in Hacc. destruct Hacc as [Hm|Hb].
           ++ left. exact Hm.
           ++ right. exists b. split; [left; reflexivity | exact Hb].
        -- right. exists b. split; [left; reflexivity | exact Hacc].
      * right. exists a. split; [right; exact Ha | exact Hle].
    + intros [Hacc|(a & [<-|Ha] & Hle)].
      * left. destruct acc as [m|]; [|contradiction].
        apply Q.min_le_iff. left. exact Hacc.
      * left. destruct acc as [m|]; [|exact Hle].
        apply Q.min_le_iff. right. exact Hle.
      * right. exists a. split; assumption.
Qed.

Lemma fold_max_ge (f : Alien.t -> Q) (c : Q) (l : list Alien.t) :
  forall acc : option Q,
    match fold_left
            (fun acc a =>
               Some (match acc with None => f a | Some m => Qmax m (f a) end))
            l acc with
    | Some m => Qle_bool c m
    | None => false
    end = true
    <-> (match acc with Some m => (c <= m)%Q | None => False end
         \/ exists a, In a l /\ (c <= f a)%Q).
Proof.
  induction l as [|b l IH]; intros acc.
  - cbn [fold_left]. destruct acc as [m|].
    + rewrite Qle_bool_iff. split; [left; assumption|].
      intros [H|(a & [] & _)]. exact H.
    + split; [discriminate|]. intros [[]|(a & [] & _)].
  - cbn [fold_left]. rewrite IH. split.
    + intros [Hacc|(a & Ha & Hle)].
      * destruct acc as [m|].
        -- apply Q.max_le_iff in Hacc. destruct Hacc as [Hm|Hb].
           ++ left. exact Hm.
           ++ right. exists b. split; [left; reflexivity | exact Hb].
        -- right. exists b. split; [left; reflexivity | exact Hacc].
      * right. exists a. split; [right; exact Ha | exact Hle].
    + intros [Hacc|(a & [<-|Ha] & Hle)].
      * left. destruct acc as [m|]; [|contradiction].
        apply Q.max_le_iff. left. exact Hacc.
      * left. destruct acc as [m|]; [|exact Hle].
        apply Q.max_le_iff. right. exact Hle.
      * right. exists a. split; assumption.
Qed.

Lemma boundary_turn_iff (g : BoundaryGrid.t) :
  BoundaryGrid.needsToChangeDirection g = true
  <-> (BoundaryGrid.direction g = 1
       /\ exists a, In a (BoundaryGrid.getAliveAliens g)
                    /\ (BoundaryGrid.boundaryX <= BoundaryGrid.worldX g a)%Q)
      \/ (BoundaryGrid.direction g = -1
          /\ exists a, In a (BoundaryGrid.getAliveAliens g)
                       /\ (BoundaryGrid.worldX g a <= - BoundaryGrid.boundaryX)%Q).
Proof.
  unfold BoundaryGrid.needsToChangeDirection, Rows.minOver, Rows.maxOver,
    BoundaryGrid.getAliveAliens.
  rewrite orb_true_iff, !andb_true_iff, !Z.eqb_eq.
  rewrite (fold_max_ge (BoundaryGrid.worldX g) BoundaryGrid.boundaryX _ None).
  rewrite (fold_min_le (BoundaryGrid.worldX g) (- BoundaryGrid.boundaryX) _ None).
  tauto.
Qed.

(** The edge and ground tests of the boundary-based [update], read off the
    live aliens.  The sweep reverses exactly when the formation moves right
    and some live alien is at or beyond x = 5, or it moves left and some live
    alien is at or beyond x = -5; the ground event is signalled exactly when
    some live alien is at or below y = -3.  With no live alien neither test
    fires.  When a formation exists, the ground test is the result of
    [update]. *)
Theorem boundary_edge_and_ground_tests {M : Math} (g : BoundaryGrid.t) :
  (BoundaryGrid.needsToChangeDirection g = true
   <-> (BoundaryGrid.direction g = 1
        /\ exists a, In a (BoundaryGrid.getAliveAliens g)
                     /\ (5 <= BoundaryGrid.worldX g a)%Q)
       \/ (BoundaryGrid.direction g = -1
           /\ exists a, In a (BoundaryGrid.getAliveAliens g)
                        /\ (BoundaryGrid.worldX g a <= -5)%Q))
  /\ (BoundaryGrid.hitGround g = true
      <-> exists a, In a (BoundaryGrid.getAliveAliens g)
                    /\ (BoundaryGrid.worldY g a <= -3)%Q)
  /\ (BoundaryGrid.getAliveAliens g = [] ->
      BoundaryGrid.needsToChangeDirection g = false
      /\ BoundaryGrid.hitGround g = false)
  /\ (forall deltaTime gp,
         BoundaryGrid.group g = Some gp ->
         length (BoundaryGrid.aliens g) <> 0%nat ->
         fst (BoundaryGrid.update deltaTime g) = BoundaryGrid.hitGround g).
Proof.
  split; [apply boundary_turn_iff|].
  split; [|split].
  - unfold BoundaryGrid.hitGround, Rows.minOver, BoundaryGrid.getAliveAliens.
    rewrite (fold_min_le (BoundaryGrid.worldY g) (-3) _ None). tauto.
  - intros Hnone.
    unfold BoundaryGrid.needsToChangeDirection, BoundaryGrid.hitGround,
      Rows.minOver, Rows.maxOver.
    unfold BoundaryGrid.getAliveAliens in Hnone. rewrite Hnone.
    split; reflexivity.
  - intros deltaTime gp Hgroup Haliens. unfold BoundaryGrid.update.
    rewrite Hgroup, (nonempty_length _ Haliens). reflexivity.
Qed.

Lemma aliveAliens_map (f : Alien.t -> Alien.t) (rows : Rows.t) :
  (forall a, Alien.isAlive (f a) = Alien.isAlive a) ->
  Rows.getAliveAliens (List.map (List.map f) rows)
  = List.map f (Rows.getAliveAliens rows).
Proof.
  intros Hf. unfold Rows.getAliveAliens.
  rewrite <- List.concat_map.
  induction (List.concat rows) as [|a l IH]; [reflexivity|].
  cbn [List.map List.filter]. rewrite Hf.
  destruct (Alien.isAlive a); cbn [List.map]; now rewrite IH.
Qed.

Lemma wiggle_keeps_alive {M : Math} (time amount bounce : Q) (a : Alien.t) :
  Alien.isAlive (Alien.wiggle time amount bounce a) = Alien.isAlive a.
Proof. unfold Alien.wiggle. destruct (negb (Alien.isAlive a)); reflexivity. Qed.

Lemma wiggle_keeps_x {M : Math} (time amount bounce : Q) (a : Alien.t) :
  Vector3.x (Alien.position (Alien.wiggle time amount bounce a))
  = Vector3.x (Alien.position a).
Proof. unfold Alien.wiggle. destruct (negb (Alien.isAlive a)); reflexivity. Qed.

Lemma alive_nonempty (rows : Rows.t) (a : Alien.t) :
  In a (Rows.getAliveAliens rows) -> length rows <> 0%nat.
Proof. destruct rows; [intros [] | discriminate]. Qed.

(** One call of [update] on a formation that reaches both boundaries. *)
Lemma spansBoundary_step {M : Math} (deltaTime : Q) (g : BoundaryGrid.t)
      (gp : Vector3.t) :
  BoundaryGrid.group g = Some gp ->
  spansBoundary g ->
  let g' := snd (BoundaryGrid.update deltaTime g) in
  spansBoundary g'
  /\ BoundaryGrid.direction g' = - BoundaryGrid.direction g
  /\ BoundaryGrid.group g'
     = Some (Vector3.mk (Vector3.x gp)
                        (Vector3.y gp - BoundaryGrid.dropDistance)
                        (Vector3.z gp))
  /\ BoundaryGrid.moveSpeed g' = (BoundaryGrid.moveSpeed g * (102 # 100))%Q.
Proof.
  intros Hgroup (Hdir & (r & Hr & Hright) & (l & Hl & Hleft)). cbv zeta.
  assert (Hturn : BoundaryGrid.needsToChangeDirection g = true).
  { apply boundary_turn_iff. destruct Hdir as [Hd|Hd]; [left|right];
      (split; [exact Hd|]); eauto. }
  assert (Haliens : length (BoundaryGrid.aliens g) <> 0%nat)
    by (eapply alive_nonempty; exact Hr).
  unfold BoundaryGrid.update.
  rewrite Hgroup, (nonempty_length _ Haliens), Hturn.
  cbn [snd BoundaryGrid.direction BoundaryGrid.group BoundaryGrid.moveSpeed].
  split; [|split; [lia | split; reflexivity]].
  unfold spansBoundary, BoundaryGrid.getAliveAliens, BoundaryGrid.worldX.
  cbn [BoundaryGrid.direction BoundaryGrid.aliens BoundaryGrid.group].
  rewrite (aliveAliens_map _ _ (wiggle_keeps_alive _ _ _)).
  split; [lia|].
  set (w := Alien.wiggle _ _ _).
  assert (Hx : forall a, Vector3.x (Alien.worldPosition
                                      (Some (Vector3.mk (Vector3.x gp)
                                                        (Vector3.y gp - BoundaryGrid.dropDistance)
                                                        (Vector3.z gp))) (w a))
                         = BoundaryGrid.worldX g a).
  { intros a. unfold BoundaryGrid.worldX. rewrite Hgroup.
    cbn [Alien.worldPosition Vector3.add Vector3.x]. unfold w.
    now rewrite wiggle_keeps_x. }
  split.
  - exists (w r). split; [apply in_map; exact Hr|]. rewrite Hx. exact Hright.
  - exists (w l). split; [apply in_map; exact Hl|]. rewrite Hx. exact Hleft.
Qed.

(** A freshly spawned wave of the boundary-based variant reaches both
    boundaries: its columns span x from -6 to 6. *)
Lemma spawnWave_spansBoundary (phase : nat -> nat -> Q) (wave : Z)
      (g : BoundaryGrid.t) :
  spansBoundary (BoundaryGrid.spawnWave phase wave g).
Proof.
  unfold spansBoundary. split; [left; reflexivity|]. split.
  - eexists. split.
    + unfold BoundaryGrid.getAliveAliens, BoundaryGrid.spawnWave.
      cbn. do 10 right. left. reflexivity.
    + vm_compute. discriminate.
  - eexists. split.
    + unfold BoundaryGrid.getAliveAliens, BoundaryGrid.spawnWave.
      cbn. left. reflexivity.
    + vm_compute. discriminate.
Qed.

(** While the boundary-based formation reaches both boundaries it never
    moves sideways: every call of [update] reverses the direction, lowers the
    group by 0.3 and multiplies the sweep speed by 1.02, and the formation
    still reaches both boundaries afterwards.  This is the situation of every
    freshly spawned wave, whose columns span x from -6 to 6 around a boundary
    of 5, and it lasts for any number of calls until an alien is destroyed. *)
Theorem wide_formation_only_descends {M : Math} (deltaTime : Q)
        (g : BoundaryGrid.t) (gp : Vector3.t) :
  BoundaryGrid.group g = Some gp ->
  spansBoundary g ->
  (forall n : nat,
      let before := boundaryFrames n deltaTime g in
      let after := boundaryFrames (S n) deltaTime g in
      spansBoundary before
      /\ BoundaryGrid.needsToChangeDirection before = true
      /\ option_map Vector3.x (BoundaryGrid.group before) = Some (Vector3.x gp)
      /\ BoundaryGrid.direction after = - BoundaryGrid.direction before
      /\ option_map Vector3.y (BoundaryGrid.group after)
         = option_map (fun y => y - BoundaryGrid.dropDistance)%Q
                      (option_map Vector3.y (BoundaryGrid.group before))
      /\ BoundaryGrid.moveSpeed after
         = (BoundaryGrid.moveSpeed before * (102 # 100))%Q)
  /\ (forall phase wave g0,
         spansBoundary (BoundaryGrid.spawnWave phase wave g0)
         /\ BoundaryGrid.group (BoundaryGrid.spawnWave phase wave g0)
            = Some (Vector3.mk 0 0 0)).
Proof.
  intros Hgroup Hwide. split.
  - assert (Hinv : forall n, exists gpn,
               BoundaryGrid.group (boundaryFrames n deltaTime g) = Some gpn
               /\ Vector3.x gpn = Vector3.x gp
               /\ spansBoundary (boundaryFrames n deltaTime g)).
    { induction n as [|n (gpn & Hg & Hx & Hw)].
      - exists gp. split; [exact Hgroup | split; [reflexivity | exact Hwide]].
      - destruct (spansBoundary_step deltaTime _ gpn Hg Hw) as (Hw' & _ & Hg' & _).
        eexists. split; [exact Hg'|]. split; [exact Hx | exact Hw']. }
    intros n. cbv zeta. destruct (Hinv n) as (gpn & Hg & Hx & Hw).
    destruct (spansBoundary_step deltaTime _ gpn Hg Hw) as (_ & Hd & Hg' & Hs).
    split; [exact Hw|]. split.
    { apply boundary_turn_iff. destruct Hw as (Hdir & Hr & Hl).
      destruct Hdir as [E|E]; [left; split; [exact E | exact Hr]
                              | right; split; [exact E | exact Hl]]. }
    split; [rewrite Hg; cbn; now rewrite Hx|].
    split; [exact Hd|].
    split; [|exact Hs].
    change (boundaryFrames (S n) deltaTime g)
      with (snd (BoundaryGrid.update deltaTime (boundaryFrames n deltaTime g))).
    rewrite Hg', Hg. reflexivity.
  - intros phase wave g0. split; [apply spawnWave_spansBoundary | reflexivity].
Qed.

Lemma wide_formation_only_descends_witness :
  let g := boundaryWave1 noPhase in
  option_map Vector3.x (BoundaryGrid.group (@boundaryFrames flat 3 (1 # 60) g))
  = Some (Vector3.x (Vector3.mk 0 0 0))
  /\ BoundaryGrid.direction (@boundaryFrames flat 4 (1 # 60) g)
     = - BoundaryGrid.direction (@boundaryFrames flat 3 (1 # 60) g).
Proof.
  cbv zeta.
  destruct (@wide_formation_only_descends flat (1 # 60) (boundaryWave1 noPhase)
              (Vector3.mk 0 0 0) eq_refl
              (spawnWave_spansBoundary noPhase 1 BoundaryGrid.new)) as [Hn _].
  destruct (Hn 3%nat) as (_ & _ & Hx & Hd & _).
  split; [exact Hx | exact Hd].
Defined.

Lemma Qle_bool_false (a b : Q) : Qle_bool a b = false -> (b < a)%Q.
Proof.
  intros Hb. apply Qnot_le_lt. intros Hle.
  apply Qle_bool_iff in Hle. congruence.
Qed.

(** The counters of the cycle-counted grid stay within their bounds.  If the
    descent count is at most 10, the travel since the last descent is less
    than 10 in absolute value and the direction is 1 or -1, then the same
    holds after any call of [update], and the descent count has not gone
    down.  The constructor, [clear] and [spawnWave] all start from 0
    descents, 0 travel and direction -1. *)
Theorem cycle_counters_bounded {M : Math} (deltaTime : Q) (g : CycleGrid.t) :
  (CycleGrid.dropCount g <= CycleGrid.maxDrops)%nat ->
  (Qabs (CycleGrid.currentHorizontalPosition g) < CycleGrid.horizontalLimit)%Q ->
  (CycleGrid.direction g = 1 \/ CycleGrid.direction g = -1) ->
  let g' := snd (CycleGrid.update deltaTime g) in
  (CycleGrid.dropCount g' <= CycleGrid.maxDrops)%nat
  /\ (CycleGrid.dropCount g <= CycleGrid.dropCount g')%nat
  /\ (Qabs (CycleGrid.currentHorizontalPosition g') < CycleGrid.horizontalLimit)%Q
  /\ (CycleGrid.direction g' = 1 \/ CycleGrid.direction g' = -1).
Proof.
  intros Hdrops Htravel Hdir. cbv zeta. unfold CycleGrid.update.
  destruct (CycleGrid.group g); [|cbn; repeat split; assumption || lia].
  destruct (length (CycleGrid.aliens g) =? 0)%nat;
    [cbn; repeat split; assumption || lia|].
  destruct (Nat.leb_spec CycleGrid.maxDrops (CycleGrid.dropCount g)) as [Hmax|Hbelow];
    [cbn; repeat split; assumption || lia|].
  cbn [snd CycleGrid.dropCount CycleGrid.currentHorizontalPosition
           CycleGrid.direction].
  destruct (CycleGrid.reachedLimit g) eqn:Hturn.
  - split; [lia|]. split; [lia|]. split; [reflexivity|]. lia.
  - split; [lia|]. split; [lia|]. split; [|exact Hdir].
    apply Qle_bool_false. exact Hturn.
Qed.

Lemma cycle_counters_bounded_witness :
  let g' := snd (@CycleGrid.update flat (1 # 60) cycleAtLimit) in
  (CycleGrid.dropCount g' <= CycleGrid.maxDrops)%nat
  /\ (CycleGrid.dropCount cycleAtLimit <= CycleGrid.dropCount g')%nat
  /\ (Qabs (CycleGrid.currentHorizontalPosition g') < CycleGrid.horizontalLimit)%Q
  /\ (CycleGrid.direction g' = 1 \/ CycleGrid.direction g' = -1).
Proof.
  apply (@cycle_counters_bounded flat (1 # 60) cycleAtLimit).
  - vm_compute. lia.
  - vm_compute. reflexivity.
  - right. vm_compute. reflexivity.
Defined.

(** The state the cycle-counted [update] leaves once the descent limit is
    reached: only the animation clock has advanced. *)
Lemma cycle_update_at_limit {M : Math} (deltaTime : Q) (g : CycleGrid.t)
      (gp : Vector3.t) :
  CycleGrid.group g = Some gp ->
  length (CycleGrid.aliens g) <> 0%nat ->
  (CycleGrid.maxDrops <= CycleGrid.dropCount g)%nat ->
  CycleGrid.update deltaTime g
  = (true,
     {| CycleGrid.aliens := CycleGrid.aliens g;
        CycleGrid.direction := CycleGrid.direction g;
        CycleGrid.moveSpeed := CycleGrid.moveSpeed g;
        CycleGrid.speedMultiplier := CycleGrid.speedMultiplier g;
        CycleGrid.currentHorizontalPosition := CycleGrid.currentHorizontalPosition g;
        CycleGrid.dropCount := CycleGrid.dropCount g;
        CycleGrid.wiggleTime := (CycleGrid.wiggleTime g + deltaTime * 3)%Q;
        CycleGrid.group := CycleGrid.group g |}).
Proof.
  intros Hgroup Haliens Hmax. unfold CycleGrid.update.
  rewrite Hgroup, (nonempty_length _ Haliens).
  destruct (Nat.leb_spec CycleGrid.maxDrops (CycleGrid.dropCount g)); [|lia].
  reflexivity.
Qed.

(** The ground signal of the cycle-counted variant.  With a formation in
    place, [update] returns true exactly when ten descents have been made.
    From then on the formation is frozen: every further call returns true
    again and only advances the animation clock, leaving the aliens, the
    group, the direction, the speed and both counters as they were. *)
Theorem cycle_ground_signal {M : Math} (deltaTime : Q) (g : CycleGrid.t)
        (gp : Vector3.t) :
  CycleGrid.group g = Some gp ->
  length (CycleGrid.aliens g) <> 0%nat ->
  (fst (CycleGrid.update deltaTime g) = true
   <-> (CycleGrid.maxDrops <= CycleGrid.dropCount g)%nat)
  /\ ((CycleGrid.maxDrops <= CycleGrid.dropCount g)%nat ->
      forall n : nat,
        let gn := cycleFrames n deltaTime g in
        fst (CycleGrid.update deltaTime gn) = true
        /\ CycleGrid.aliens gn = CycleGrid.aliens g
        /\ CycleGrid.group gn = CycleGrid.group g
        /\ CycleGrid.direction gn = CycleGrid.direction g
        /\ CycleGrid.moveSpeed gn = CycleGrid.moveSpeed g
        /\ CycleGrid.currentHorizontalPosition gn
           = CycleGrid.currentHorizontalPosition g
        /\ CycleGrid.dropCount gn = CycleGrid.dropCount g).
Proof.
  intros Hgroup Haliens. split.
  - unfold CycleGrid.update. rewrite Hgroup, (nonempty_length _ Haliens).
    destruct (Nat.leb_spec CycleGrid.maxDrops (CycleGrid.dropCount g)) as [Hmax|Hbelow].
    + cbn. split; [intros _; exact Hmax | reflexivity].
    + cbn. split; [discriminate | lia].
  - intros Hmax n. cbv zeta.
    assert (Hfrozen : CycleGrid.aliens (cycleFrames n deltaTime g) = CycleGrid.aliens g
                      /\ CycleGrid.group (cycleFrames n deltaTime g) = CycleGrid.group g
                      /\ CycleGrid.direction (cycleFrames n deltaTime g)
                         = CycleGrid.direction g
                      /\ CycleGrid.moveSpeed (cycleFrames n deltaTime g)
                         = CycleGrid.moveSpeed g
                      /\ CycleGrid.currentHorizontalPosition (cycleFrames n deltaTime g)
                         = CycleGrid.currentHorizontalPosition g
                      /\ CycleGrid.dropCount (cycleFrames n deltaTime g)
                         = CycleGrid.dropCount g).
    { induction n as [|n (Ha & Hg & Hd & Hs & Hc & Hn)]; [repeat split|].
      change (cycleFrames (S n) deltaTime g)
        with (snd (CycleGrid.update deltaTime (cycleFrames n deltaTime g))).
      rewrite (cycle_update_at_limit deltaTime _ gp).
      - cbn. repeat split; assumption.
      - now rewrite Hg.
      - now rewrite Ha.
      - now rewrite Hn. }
    destruct Hfrozen as (Ha & Hg & Hd & Hs & Hc & Hn).
    split; [|repeat split; assumption].
    rewrite (cycle_update_at_limit deltaTime _ gp); [reflexivity| | |].
    + now rewrite Hg.
    + now rewrite Ha.
    + now rewrite Hn.
Qed.

Lemma cycle_ground_signal_witness :
  fst (@CycleGrid.update flat (1 # 60) cycleAtLimit) = true
  <-> (CycleGrid.maxDrops <= CycleGrid.dropCount cycleAtLimit)%nat.
Proof.
  edestruct (@cycle_ground_signal flat (1 # 60) cycleAtLimit) as [Hiff _].
  - vm_compute. reflexivity.
  - vm_compute. discriminate.
  - exact Hiff.
Defined.

Lemma cycle_spawn_count (phase : nat -> nat -> Q) (wave : Z) (g : CycleGrid.t) :
  CycleGrid.getAliveCount (CycleGrid.spawnWave phase wave g) = 55%nat.
Proof. reflexivity. Qed.

Lemma cycle_update_speed {M : Math} (deltaTime : Q) (g : CycleGrid.t) :
  CycleGrid.moveSpeed (snd (CycleGrid.update deltaTime g)) = CycleGrid.moveSpeed g
  /\ CycleGrid.speedMultiplier (snd (CycleGrid.update deltaTime g))
     = CycleGrid.speedMultiplier g.
Proof.
  unfold CycleGrid.update.
  destruct (CycleGrid.group g); [|split; reflexivity].
  destruct (length (CycleGrid.aliens g) =? 0)%nat; [split; reflexivity|].
  destruct (CycleGrid.maxDrops <=? CycleGrid.dropCount g)%nat; split; reflexivity.
Qed.

Lemma cycleSpeedLaw_spawn (phase : nat -> nat -> Q) (wave : Z) (g : CycleGrid.t) :
  1 <= wave -> cycleSpeedLaw (CycleGrid.spawnWave phase wave g).
Proof.
  intros Hwave. unfold cycleSpeedLaw. rewrite cycle_spawn_count.
  cbn [CycleGrid.spawnWave CycleGrid.speedMultiplier CycleGrid.moveSpeed].
  assert (Hq : (1 <= inject_Z wave)%Q).
  { change 1%Q with (inject_Z 1). rewrite <- Zle_Qle. exact Hwave. }
  unfold CycleGrid.baseSpeed.
  change (inject_Z (Z.of_nat (Nat.max 1 55))) with 55%Q.
  split; [lra | ring].
Qed.

(** One operation keeps the speed law and does not lower the speed. *)
Lemma cycleSpeedLaw_step {M : Math} (g : CycleGrid.t) (op : GridOp) :
  cycleSpeedLaw g ->
  cycleSpeedLaw (cycleApply g op)
  /\ (CycleGrid.moveSpeed g <= CycleGrid.moveSpeed (cycleApply g op))%Q.
Proof.
  intros [Hpos Hlaw]. destruct op as [deltaTime|alien]; cbn [cycleApply].
  - destruct (cycle_update_speed deltaTime g) as [Hs Hm].
    unfold cycleSpeedLaw. rewrite Hs, Hm, cycle_update_count.
    split; [split; assumption | apply Qle_refl].
  - unfold CycleGrid.destroyAlien.
    destruct (Rows.at_ref alien (CycleGrid.aliens g)) as [a|] eqn:Hat;
      [|split; [split; assumption | apply Qle_refl]].
    destruct (Alien.isAlive a) eqn:Halive; cbn [negb];
      [|split; [split; assumption | apply Qle_refl]].
    pose proof (aliveCount_kill alien a _ Hat Halive) as Hcount.
    unfold cycleSpeedLaw, CycleGrid.getAliveCount, CycleGrid.getAliveAliens in *.
    cbn [CycleGrid.aliens CycleGrid.moveSpeed CycleGrid.speedMultiplier].
    fold (Rows.getAliveCount (Rows.set_ref alien (Alien.kill a) (CycleGrid.aliens g))).
    fold (Rows.getAliveCount (CycleGrid.aliens g)) in Hlaw.
    rewrite <- Hcount in Hlaw.
    destruct (Rows.getAliveCount (Rows.set_ref alien (Alien.kill a) (CycleGrid.aliens g)))
      as [|k].
    + cbn [Nat.ltb Nat.leb]. split; [split; assumption | apply Qle_refl].
    + change (0 <? S k)%nat with true. cbv iota.
      change (Nat.max 1 (S k)) with (S k).
      change (Nat.max 1 (S (S k))) with (S (S k)) in Hlaw.
      split; [split; [exact Hpos | reflexivity]|].
      rewrite Hlaw.
      set (c := (CycleGrid.baseSpeed * CycleGrid.speedMultiplier g)%Q) in *.
      assert (Hk : (inject_Z (Z.of_nat (S (S k))) == inject_Z (Z.of_nat (S k)) + 1)%Q).
      { rewrite (Nat2Z.inj_succ (S k)). unfold Z.succ.
        rewrite inject_Z_plus. reflexivity. }
      rewrite Hk.
      set (q := inject_Z (Z.of_nat (S k))).
      assert (Hstep : (c * (1 + (55 - q) * (2 # 100))
                       == c * (1 + (55 - (q + 1)) * (2 # 100)) + c * (2 # 100))%Q)
        by ring.
      rewrite Hstep.
      assert (Hinc : (0 <= c * (2 # 100))%Q).
      { apply Qmult_le_0_compat; [exact Hpos | discriminate]. }
      lra.
Qed.

(** Within a wave of the cycle-counted variant the sweep speed never
    decreases: starting from [spawnWave] with a wave number of at least 1,
    after any sequence of [update] and [destroyAlien] calls, one more call of
    either leaves the speed as it was or raises it. *)
Theorem cycle_speed_never_decreases {M : Math} (phase : nat -> nat -> Q)
        (wave : Z) (g0 : CycleGrid.t) (ops : list GridOp) (op : GridOp) :
  1 <= wave ->
  let g := cycleRun ops (CycleGrid.spawnWave phase wave g0) in
  (CycleGrid.moveSpeed g <= CycleGrid.moveSpeed (cycleApply g op))%Q.
Proof.
  intros Hwave. cbv zeta.
  assert (Hlaw : cycleSpeedLaw (cycleRun ops (CycleGrid.spawnWave phase wave g0))).
  { unfold cycleRun.
    generalize (cycleSpeedLaw_spawn phase wave g0 Hwave).
    generalize (CycleGrid.spawnWave phase wave g0).
    induction ops as [|o ops IH]; intros g Hg; [exact Hg|].
    cbn [fold_left]. apply IH. apply cycleSpeedLaw_step. exact Hg. }
  apply cycleSpeedLaw_step. exact Hlaw.
Qed.

Lemma cycle_speed_never_decreases_witness :
  let g := @cycleRun flat [OpUpdate (1 # 60); OpDestroy (0%nat, 0%nat); OpUpdate (1 # 60)]
                     (CycleGrid.spawnWave noPhase 1 CycleGrid.new) in
  (CycleGrid.moveSpeed g
   <= CycleGrid.moveSpeed (@cycleApply flat g (OpDestroy (0%nat, 1%nat))))%Q.
Proof.
  apply (@cycle_speed_never_decreases flat noPhase 1 CycleGrid.new). lia.
Defined.

(** What [spawnWave] builds, in both variants, whatever formation was there
    before: 5 rows of 11 aliens, all alive and visible, of tier 3 in row 0,
    tier 2 in rows 1 and 2 and tier 1 in rows 3 and 4, worth ten times their
    tier, each knowing its own row and column; 55 live aliens worth 990
    points in all; the group at the origin; the counters and the direction
    reset; and a sweep speed of [baseSpeed x (1 + (wave - 1) x 0.15)].  The
    targets the shooting system is given name the places of the grid row by
    row. *)
Theorem spawnWave_builds_full_grid (phase : nat -> nat -> Q) (wave : Z) :
  let expected :=
    List.map (fun row =>
                List.map (fun col =>
                            (true, true, Rows.alienType row,
                             Rows.alienType row * 10, phase row col, row, col))
                         (seq 0 11))
             (seq 0 5) in
  let places :=
    List.flat_map (fun row => List.map (fun col => (row, col)) (seq 0 11)) (seq 0 5) in
  (forall g : BoundaryGrid.t,
      let g' := BoundaryGrid.spawnWave phase wave g in
      List.map (List.map alienData) (BoundaryGrid.aliens g') = expected
      /\ BoundaryGrid.getAliveCount g' = 55%nat
      /\ BoundaryGrid.isWaveCleared g' = false
      /\ fold_right Z.add 0 (List.map Alien.points (BoundaryGrid.getAliveAliens g')) = 990
      /\ List.map target_ref (BoundaryGrid.targets g') = places
      /\ BoundaryGrid.group g' = Some (Vector3.mk 0 0 0)
      /\ BoundaryGrid.direction g' = 1
      /\ BoundaryGrid.moveSpeed g'
         = (BoundaryGrid.baseSpeed * (1 + (inject_Z wave - 1) * (15 # 100)))%Q)
  /\ (forall g : CycleGrid.t,
         let g' := CycleGrid.spawnWave phase wave g in
         List.map (List.map alienData) (CycleGrid.aliens g') = expected
         /\ CycleGrid.getAliveCount g' = 55%nat
         /\ CycleGrid.isWaveCleared g' = false
         /\ fold_right Z.add 0 (List.map Alien.points (CycleGrid.getAliveAliens g')) = 990
         /\ List.map target_ref (CycleGrid.targets g') = places
         /\ CycleGrid.group g' = Some (Vector3.mk 0 0 0)
         /\ CycleGrid.direction g' = -1
         /\ CycleGrid.dropCount g' = 0%nat
         /\ CycleGrid.currentHorizontalPosition g' = 0%Q
         /\ CycleGrid.moveSpeed g'
            = (CycleGrid.baseSpeed * (1 + (inject_Z wave - 1) * (15 # 100)))%Q).
Proof.
  cbv zeta. split; intros g; repeat split.
Qed.

(** *** HUD *)

(** Lives stay between 0 and [maxLives].  [loseLife] returns the lives that
    remain; it takes one life while there is one and does nothing at 0; it
    never touches the score or the combo.  [reset] restores all three
    lives. *)
Theorem lives_stay_in_range (h : HUD.t) :
  0 <= HUD.currentLives h <= HUD.maxLives ->
  fst (HUD.loseLife h) = HUD.currentLives (snd (HUD.loseLife h))
  /\ 0 <= HUD.currentLives (snd (HUD.loseLife h)) <= HUD.maxLives
  /\ (0 < HUD.currentLives h ->
      HUD.currentLives (snd (HUD.loseLife h)) = HUD.currentLives h - 1)
  /\ (HUD.currentLives h = 0 -> HUD.loseLife h = (0, h))
  /\ HUD.targetScore (snd (HUD.loseLife h)) = HUD.targetScore h
  /\ HUD.comboCount (snd (HUD.loseLife h)) = HUD.comboCount h
  /\ HUD.currentLives (HUD.reset h) = HUD.maxLives.
Proof.
  intros Hrange. unfold HUD.loseLife, HUD.maxLives in *.
  destruct (Z.ltb_spec 0 (HUD.currentLives h)) as [Hpos|Hzero];
    cbn [fst snd HUD.currentLives HUD.targetScore HUD.comboCount].
  - repeat split; intros; lia.
  - repeat split; intros; try lia.
    assert (Hz : HUD.currentLives h = 0) by lia. rewrite Hz. reflexivity.
Qed.

Lemma lives_stay_in_range_witness :
  fst (HUD.loseLife HUD.new) = 2
  /\ HUD.currentLives (snd (HUD.loseLife (snd (HUD.loseLife (snd (HUD.loseLife HUD.new))))))
     = 0.
Proof.
  destruct (lives_stay_in_range HUD.new) as (Hret & _ & Hdec & _);
    [vm_compute; split; discriminate|].
  split.
  - rewrite Hret. apply Hdec. reflexivity.
  - reflexivity.
Defined.

(** The score of a hit is between the alien's points and five times the
    alien's points, so with points that are not negative the score never
    decreases. *)
Theorem score_of_a_hit_bounded (now points : Z) (h : HUD.t) :
  0 <= points ->
  HUD.targetScore h + points <= HUD.targetScore (HUD.addScore now points h)
  /\ HUD.targetScore (HUD.addScore now points h) <= HUD.targetScore h + 5 * points
  /\ HUD.getScore h <= HUD.getScore (HUD.addScore now points h).
Proof.
  intros Hpoints. unfold HUD.getScore, HUD.addScore, HUD.incrementCombo,
                    HUD.finalPoints, HUD.multiplier.
  cbn [HUD.targetScore]. nia.
Qed.

Lemma score_of_a_hit_bounded_witness :
  let h := HUD.addScore 1000 30 (HUD.addScore 900 10 HUD.new) in
  HUD.targetScore h + 20 <= HUD.targetScore (HUD.addScore 1100 20 h)
  /\ HUD.targetScore (HUD.addScore 1100 20 h) <= HUD.targetScore h + 5 * 20
  /\ HUD.getScore h <= HUD.getScore (HUD.addScore 1100 20 h).
Proof. cbv zeta. apply score_of_a_hit_bounded. lia. Defined.

Lemma animateStep_progress (d t : Z) :
  d < t ->
  d < ScoreAnimation.animateStep d t /\ ScoreAnimation.animateStep d t <= t.
Proof.
  intros Hlt. unfold ScoreAnimation.animateStep.
  destruct (Z.ltb_spec d t) as [_|Hge]; [|lia]. cbv zeta.
  assert (Hinc : 0 < Qceiling (inject_Z (t - d) / 10)).
  { rewrite Zlt_Qlt. eapply Qlt_le_trans; [|apply Qle_ceiling].
    apply Qlt_shift_div_l; [reflexivity|].
    rewrite Qmult_0_l. change 0%Q with (inject_Z 0). rewrite <- Zlt_Qlt. lia. }
  lia.
Qed.

Lemma animateStep_done (d t : Z) :
  t <= d -> ScoreAnimation.animateStep d t = d.
Proof.
  intros Hge. unfold ScoreAnimation.animateStep.
  destruct (Z.ltb_spec d t); [lia | reflexivity].
Qed.

Lemma animateFrames_converge (t : Z) (n : nat) :
  forall d, d <= t -> t - d <= Z.of_nat n ->
            ScoreAnimation.animateFrames n d t = t.
Proof.
  unfold ScoreAnimation.animateFrames.
  induction n as [|n IH]; intros d Hle Hgap.
  - cbn. lia.
  - rewrite Nat.iter_succ_r.
    destruct (Z.eq_dec d t) as [->|Hne].
    + rewrite animateStep_done by lia. apply IH; lia.
    + destruct (animateStep_progress d t) as [Hup Hcap]; [lia|].
      apply IH; lia.
Qed.

(** The animated score counter catches up with the score and stops there.
    While the displayed score is behind the target, a frame of the animation
    raises it, by at least one and never past the target; once they are
    equal a frame changes nothing; and from a displayed score [d] at most
    [target - d] frames bring it to the target. *)
Theorem score_animation_converges (d target : Z) :
  d <= target ->
  (d < target -> d < ScoreAnimation.animateStep d target <= target)
  /\ ScoreAnimation.animateStep target target = target
  /\ (forall n : nat,
         target - d <= Z.of_nat n ->
         ScoreAnimation.animateFrames n d target = target).
Proof.
  intros Hle. split; [|split].
  - intros Hlt. apply animateStep_progress. exact Hlt.
  - apply animateStep_done. lia.
  - intros n Hgap. apply animateFrames_converge; assumption.
Qed.

Lemma score_animation_converges_witness :
  ScoreAnimation.animateStep 0 30 = 3
  /\ ScoreAnimation.animateFrames 30 0 30 = 30.
Proof.
  destruct (score_animation_converges 0 30) as (_ & _ & Hconv); [lia|].
  split; [reflexivity|]. apply Hconv. lia.
Defined.

(** *** GameManager *)

(** A ground event costs a life and never changes the wave number, the kill
    count, the score or the pending spawns, with either grid.  With more
    than one life left the game goes on: one life is taken, the formation is
    cleared and the same wave is spawned again, and the projectiles in
    flight are kept.  With one life or none the game is over: the loop is
    stopped, the formation is cleared and every projectile is removed. *)
Theorem ground_event_costs_a_life {G : Type} `{AlienGridOps G}
        (phase : nat -> nat -> Q) (gm : GameManager.t G) :
  let gm' := GameManager.onAlienHitGround phase gm in
  GameManager.wave gm' = GameManager.wave gm
  /\ GameManager.aliensKilled gm' = GameManager.aliensKilled gm
  /\ HUD.targetScore (GameManager.hud gm') = HUD.targetScore (GameManager.hud gm)
  /\ GameManager.spawnTimers gm' = GameManager.spawnTimers gm
  /\ (1 < HUD.currentLives (GameManager.hud gm) ->
      GameManager.isPlaying gm' = GameManager.isPlaying gm
      /\ HUD.currentLives (GameManager.hud gm')
         = HUD.currentLives (GameManager.hud gm) - 1
      /\ GameManager.alienGrid gm'
         = grid_spawnWave phase (GameManager.wave gm)
                          (grid_clear (GameManager.alienGrid gm))
      /\ GameManager.shootingSystem gm' = GameManager.shootingSystem gm)
  /\ (HUD.currentLives (GameManager.hud gm) <= 1 ->
      GameManager.isPlaying gm' = false
      /\ HUD.currentLives (GameManager.hud gm')
         = Z.min 0 (HUD.currentLives (GameManager.hud gm))
      /\ GameManager.alienGrid gm' = grid_clear (GameManager.alienGrid gm)
      /\ ShootingSystem.projectiles (GameManager.shootingSystem gm') = []).
Proof.
  cbv zeta. unfold GameManager.onAlienHitGround, HUD.loseLife.
  destruct (Z.ltb_spec 0 (HUD.currentLives (GameManager.hud gm))) as [Hpos|Hnone].
  - destruct (Z.leb_spec (HUD.currentLives (GameManager.hud gm) - 1) 0) as [Hlast|Hmore].
    + cbn. repeat split; try lia.
      unfold ShootingSystem.clear. cbn. apply remove_all_from_the_end.
    + cbn. repeat split; lia.
  - destruct (Z.leb_spec (HUD.currentLives (GameManager.hud gm)) 0) as [_|Habs]; [|lia].
    cbn. repeat split; try lia.
    unfold ShootingSystem.clear. cbn. apply remove_all_from_the_end.
Qed.

Lemma ground_event_costs_a_life_witness :
  let gm : GameManager.t CycleGrid.t :=
    @GameManager.startGame _ (@CycleGridOps flat) noPhase
                           (@GameManager.new _ (@CycleGridOps flat)) in
  let gm' := @GameManager.onAlienHitGround _ (@CycleGridOps flat) noPhase gm in
  GameManager.isPlaying gm' = GameManager.isPlaying gm
  /\ HUD.currentLives (GameManager.hud gm') = 3 - 1.
Proof.
  cbv zeta.
  destruct (@ground_event_costs_a_life _ (@CycleGridOps flat) noPhase
              (@GameManager.startGame _ (@CycleGridOps flat) noPhase
                                      (@GameManager.new _ (@CycleGridOps flat))))
    as (_ & _ & _ & _ & Hmore & _).
  destruct Hmore as (Hplay & Hlives & _); [vm_compute; reflexivity|].
  split; [exact Hplay | exact Hlives].
Defined.

(** A game that is not playing ignores frames and clicks: [gameLoop] and the
    click handler leave the whole state as it was, and a spawn timer that
    comes due is consumed without spawning anything.  [gameOver] puts the
    game in that state. *)
Theorem stopped_game_ignores_events {G : Type} `{AlienGridOps G}
        (gm : GameManager.t G) :
  GameManager.isPlaying gm = false ->
  (forall now deltaTime phase, GameManager.gameLoop now deltaTime phase gm = gm)
  /\ (forall now camera, GameManager.handleClick now camera gm = gm)
  /\ (forall now phase,
         let gm' := GameManager.spawnTimerTick now phase gm in
         GameManager.alienGrid gm' = GameManager.alienGrid gm
         /\ GameManager.isPlaying gm' = false
         /\ GameManager.wave gm' = GameManager.wave gm
         /\ (length (GameManager.spawnTimers gm')
             <= length (GameManager.spawnTimers gm))%nat)
  /\ (forall gm0 : GameManager.t G,
         GameManager.isPlaying (GameManager.gameOver gm0) = false).
Proof.
  intros Hstopped. split; [|split; [|split]].
  - intros now deltaTime phase. unfold GameManager.gameLoop.
    now rewrite Hstopped.
  - intros now camera. unfold GameManager.handleClick. now rewrite Hstopped.
  - intros now phase. cbv zeta. unfold GameManager.spawnTimerTick.
    destruct (GameManager.spawnTimers gm) as [|due rest] eqn:Htimers.
    + rewrite Htimers. repeat split; [assumption | reflexivity].
    + destruct (due <=? now).
      * cbn. rewrite Hstopped. cbn. repeat split. lia.
      * rewrite Htimers. repeat split; [assumption | reflexivity].
  - reflexivity.
Qed.

Lemma stopped_game_ignores_events_witness :
  let gm : GameManager.t CycleGrid.t :=
    @GameManager.gameOver _ (@CycleGridOps flat)
                          (@clearedGame _ (@CycleGridOps flat) noPhase) in
  @GameManager.gameLoop _ (@CycleGridOps flat) 6000 (1 # 60) noPhase gm = gm
  /\ GameManager.handleClick 6000 frontCamera gm = gm.
Proof.
  cbv zeta.
  destruct (@stopped_game_ignores_events _ (@CycleGridOps flat)
              (@GameManager.gameOver _ (@CycleGridOps flat)
                                     (@clearedGame _ (@CycleGridOps flat) noPhase))
              eq_refl) as (Hloop & Hclick & _).
  split; [apply Hloop | apply Hclick].
Defined.

(** A hit on an alien that is already dead, which [ShootingSystem.update]
    can report when two projectiles reach one alien in the same tick, is
    still counted, with either variant of the grid: the kill counter and the
    combo count go up by one, while the score and the grid are as before. *)
Theorem hit_on_dead_alien_is_counted {M : Math} (now : Z) (alien : Target)
        (a : Alien.t) :
  Alien.isAlive a = false ->
  (forall gm : GameManager.t BoundaryGrid.t,
      Rows.at_ref (target_ref alien) (BoundaryGrid.aliens (GameManager.alienGrid gm))
      = Some a ->
      let gm' := GameManager.onAlienHit now gm alien in
      GameManager.aliensKilled gm' = GameManager.aliensKilled gm + 1
      /\ HUD.comboCount (GameManager.hud gm') = HUD.comboCount (GameManager.hud gm) + 1
      /\ HUD.targetScore (GameManager.hud gm') = HUD.targetScore (GameManager.hud gm)
      /\ GameManager.alienGrid gm' = GameManager.alienGrid gm)
  /\ (forall gm : GameManager.t CycleGrid.t,
         Rows.at_ref (target_ref alien) (CycleGrid.aliens (GameManager.alienGrid gm))
         = Some a ->
         let gm' := GameManager.onAlienHit now gm alien in
         GameManager.aliensKilled gm' = GameManager.aliensKilled gm + 1
         /\ HUD.comboCount (GameManager.hud gm') = HUD.comboCount (GameManager.hud gm) + 1
         /\ HUD.targetScore (GameManager.hud gm') = HUD.targetScore (GameManager.hud gm)
         /\ GameManager.alienGrid gm' = GameManager.alienGrid gm).
Proof.
  intros Hdead. split; intros gm Hat; cbv zeta; unfold GameManager.onAlienHit.
  - cbn [grid_destroyAlien BoundaryGridOps]. unfold BoundaryGrid.destroyAlien.
    rewrite Hat, Hdead. cbn. repeat split. unfold HUD.finalPoints. lia.
  - cbn [grid_destroyAlien CycleGridOps]. unfold CycleGrid.destroyAlien.
    rewrite Hat, Hdead. cbn. repeat split. unfold HUD.finalPoints. lia.
Qed.

Lemma hit_on_dead_alien_is_counted_witness :
  let hit := mkTarget (0%nat, 0%nat) true (Vector3.mk 0 0 0) in
  let gm : GameManager.t BoundaryGrid.t :=
    @GameManager.onAlienHit _ (@BoundaryGridOps flat) 5000
      (@GameManager.startGame _ (@BoundaryGridOps flat) noPhase
                              (@GameManager.new _ (@BoundaryGridOps flat)))
      hit in
  let gm' := @GameManager.onAlienHit _ (@BoundaryGridOps flat) 5000 gm hit in
  GameManager.aliensKilled gm' = 1 + 1
  /\ HUD.targetScore (GameManager.hud gm') = 30.
Proof.
  cbv zeta.
  edestruct (@hit_on_dead_alien_is_counted flat 5000
               (mkTarget (0%nat, 0%nat) true (Vector3.mk 0 0 0))) as [HB _].
  2: { edestruct (HB (@GameManager.onAlienHit _ (@BoundaryGridOps flat) 5000
                        (@GameManager.startGame _ (@BoundaryGridOps flat) noPhase
                           (@GameManager.new _ (@BoundaryGridOps flat)))
                        (mkTarget (0%nat, 0%nat) true (Vector3.mk 0 0 0))))
         as (Hkills & _ & Hscore & _).
       - vm_compute. reflexivity.
       - split; [exact Hkills | exact Hscore]. }
  reflexivity.
Defined.

Lemma shooting_clear_eq (s : ShootingSystem.t) :
  ShootingSystem.clear s
  = {| ShootingSystem.lastShotTime := ShootingSystem.lastShotTime s;
       ShootingSystem.projectiles := [] |}.
Proof. unfold ShootingSystem.clear. now rewrite remove_all_from_the_end. Qed.

(** What [onAlienHitGround] leaves when one life or none is left. *)
Lemma last_life_lost {G : Type} `{AlienGridOps G} (phase : nat -> nat -> Q)
      (gm : GameManager.t G) :
  HUD.currentLives (GameManager.hud gm) <= 1 ->
  GameManager.onAlienHitGround phase gm
  = {| GameManager.isPlaying := false;
       GameManager.wave := GameManager.wave gm;
       GameManager.aliensKilled := GameManager.aliensKilled gm;
       GameManager.hud := snd (HUD.loseLife (GameManager.hud gm));
       GameManager.alienGrid := grid_clear (GameManager.alienGrid gm);
       GameManager.shootingSystem :=
         {| ShootingSystem.lastShotTime :=
              ShootingSystem.lastShotTime (GameManager.shootingSystem gm);
            ShootingSystem.projectiles := [] |};
       GameManager.spawnTimers := GameManager.spawnTimers gm |}.
Proof.
  intros Hlast. unfold GameManager.onAlienHitGround, HUD.loseLife.
  destruct (Z.ltb_spec 0 (HUD.currentLives (GameManager.hud gm))) as [Hpos|Hnone].
  - destruct (Z.leb_spec (HUD.currentLives (GameManager.hud gm) - 1) 0) as [_|Hmore];
      [|lia].
    unfold GameManager.gameOver. cbn. now rewrite shooting_clear_eq.
  - destruct (Z.leb_spec (HUD.currentLives (GameManager.hud gm)) 0) as [_|Habs]; [|lia].
    unfold GameManager.gameOver. cbn. now rewrite shooting_clear_eq.
Qed.

(** The frame that ends the game runs the rest of the loop.  When the
    formation signals the ground with one life or none left, [gameLoop] stops
    the game, clears the formation and the projectiles, and then finds the
    emptied grid cleared: it also raises the wave number by one and schedules
    a spawn 1500 ms later, which will do nothing.  This holds for the ground
    signal of either variant. *)
Theorem final_frame_completes_a_wave {M : Math} (now : Z) (deltaTime : Q)
        (phase : nat -> nat -> Q) (gp : Vector3.t) :
  (forall gm : GameManager.t CycleGrid.t,
      GameManager.isPlaying gm = true ->
      HUD.currentLives (GameManager.hud gm) <= 1 ->
      CycleGrid.group (GameManager.alienGrid gm) = Some gp ->
      length (CycleGrid.aliens (GameManager.alienGrid gm)) <> 0%nat ->
      (CycleGrid.maxDrops <= CycleGrid.dropCount (GameManager.alienGrid gm))%nat ->
      let gm' := GameManager.gameLoop now deltaTime phase gm in
      GameManager.isPlaying gm' = false
      /\ GameManager.wave gm' = GameManager.wave gm + 1
      /\ GameManager.spawnTimers gm' = GameManager.spawnTimers gm ++ [now + 1500]
      /\ GameManager.aliensKilled gm' = GameManager.aliensKilled gm
      /\ CycleGrid.aliens (GameManager.alienGrid gm') = []
      /\ ShootingSystem.projectiles (GameManager.shootingSystem gm') = []
      /\ GameManager.alienGrid
           (GameManager.spawnTimerTick (now + 1500) phase
              {| GameManager.isPlaying := GameManager.isPlaying gm';
                 GameManager.wave := GameManager.wave gm';
                 GameManager.aliensKilled := GameManager.aliensKilled gm';
                 GameManager.hud := GameManager.hud gm';
                 GameManager.alienGrid := GameManager.alienGrid gm';
                 GameManager.shootingSystem := GameManager.shootingSystem gm';
                 GameManager.spawnTimers := [now + 1500] |})
         = GameManager.alienGrid gm')
  /\ (forall gm : GameManager.t BoundaryGrid.t,
         GameManager.isPlaying gm = true ->
         HUD.currentLives (GameManager.hud gm) <= 1 ->
         BoundaryGrid.group (GameManager.alienGrid gm) = Some gp ->
         length (BoundaryGrid.aliens (GameManager.alienGrid gm)) <> 0%nat ->
         BoundaryGrid.hitGround (GameManager.alienGrid gm) = true ->
         let gm' := GameManager.gameLoop now deltaTime phase gm in
         GameManager.isPlaying gm' = false
         /\ GameManager.wave gm' = GameManager.wave gm + 1
         /\ GameManager.spawnTimers gm' = GameManager.spawnTimers gm ++ [now + 1500]
         /\ GameManager.aliensKilled gm' = GameManager.aliensKilled gm
         /\ BoundaryGrid.aliens (GameManager.alienGrid gm') = []
         /\ ShootingSystem.projectiles (GameManager.shootingSystem gm') = []).
Proof.
  split.
  - intros gm Hplaying Hlast Hgroup Haliens Hmax. cbv zeta.
    unfold GameManager.gameLoop. rewrite Hplaying. cbn [negb].
    cbn [grid_update CycleGridOps].
    rewrite (cycle_update_at_limit deltaTime _ gp Hgroup Haliens Hmax).
    rewrite last_life_lost by exact Hlast.
    cbn. destruct (now + 1500 <=? now + 1500); repeat split.
  - intros gm Hplaying Hlast Hgroup Haliens Hground. cbv zeta.
    unfold GameManager.gameLoop. rewrite Hplaying. cbn [negb].
    cbn [grid_update BoundaryGridOps].
    unfold BoundaryGrid.update.
    rewrite Hgroup, (nonempty_length _ Haliens), Hground.
    rewrite last_life_lost by exact Hlast.
    cbn. repeat split.
Qed.

Lemma final_frame_completes_a_wave_witness :
  let grid : CycleGrid.t :=
    {| CycleGrid.aliens := CycleGrid.aliens (cycleWave1 noPhase);
       CycleGrid.direction := 1;
       CycleGrid.moveSpeed := CycleGrid.moveSpeed (cycleWave1 noPhase);
       CycleGrid.speedMultiplier := 1;
       CycleGrid.currentHorizontalPosition := 0;
       CycleGrid.dropCount := 10;
       CycleGrid.wiggleTime := 0;
       CycleGrid.group := Some (Vector3.mk 0 (-10) 0) |} in
  let gm : GameManager.t CycleGrid.t :=
    {| GameManager.isPlaying := true; GameManager.wave := 1;
       GameManager.aliensKilled := 0;
       GameManager.hud :=
         snd (HUD.loseLife (snd (HUD.loseLife HUD.new)));
       GameManager.alienGrid := grid;
       GameManager.shootingSystem := oneShot;
       GameManager.spawnTimers := [] |} in
  let gm' := @GameManager.gameLoop _ (@CycleGridOps flat) 9000 (1 # 60) noPhase gm in
  GameManager.isPlaying gm' = false
  /\ GameManager.wave gm' = 1 + 1
  /\ GameManager.spawnTimers gm' = [] ++ [9000 + 1500].
Proof.
  cbv zeta.
  destruct (@final_frame_completes_a_wave flat 9000 (1 # 60) noPhase
              (Vector3.mk 0 (-10) 0)) as [HC _].
  edestruct HC as (Hplay & Hwave & Htimers & _);
    [| | | | | split; [exact Hplay | split; [exact Hwave | exact Htimers]]].
  - reflexivity.
  - vm_compute. discriminate.
  - reflexivity.
  - vm_compute. discriminate.
  - vm_compute. lia.
Defined.

(** [restartGame] starts over from any state, with either grid: the game is
    playing at wave 1 with no kills, no score, no combo and all three lives,
    no projectile is left, and the formation is a fresh wave 1.  It does not
    cancel the spawns that are still pending: they stay in the queue, and the
    first of them, once due, spawns the formation again in the new game. *)
Theorem restart_resets_all_but_pending_spawns {G : Type} `{AlienGridOps G}
        (phase : nat -> nat -> Q) (gm : GameManager.t G) :
  let gm' := GameManager.restartGame phase gm in
  GameManager.isPlaying gm' = true
  /\ GameManager.wave gm' = 1
  /\ GameManager.aliensKilled gm' = 0
  /\ HUD.targetScore (GameManager.hud gm') = 0
  /\ HUD.comboCount (GameManager.hud gm') = 0
  /\ HUD.currentLives (GameManager.hud gm') = HUD.maxLives
  /\ HUD.currentWave (GameManager.hud gm') = 1
  /\ ShootingSystem.projectiles (GameManager.shootingSystem gm') = []
  /\ GameManager.alienGrid gm'
     = grid_spawnWave phase 1 (grid_clear (GameManager.alienGrid gm))
  /\ GameManager.spawnTimers gm' = GameManager.spawnTimers gm
  /\ (forall due rest now phase',
         GameManager.spawnTimers gm = due :: rest ->
         due <= now ->
         GameManager.alienGrid (GameManager.spawnTimerTick now phase' gm')
         = grid_spawnWave phase' 1 (GameManager.alienGrid gm')).
Proof.
  cbv zeta. unfold GameManager.restartGame, GameManager.spawnWave.
  cbn [GameManager.isPlaying GameManager.wave GameManager.aliensKilled
       GameManager.hud GameManager.alienGrid GameManager.shootingSystem
       GameManager.spawnTimers].
  rewrite shooting_clear_eq.
  repeat split.
  intros due rest now phase' Htimers Hdue.
  unfold GameManager.spawnTimerTick.
  cbn [GameManager.spawnTimers]. rewrite Htimers.
  destruct (Z.leb_spec due now) as [_|Hlate]; [|lia].
  reflexivity.
Qed.

Lemma restart_resets_all_but_pending_spawns_witness :
  let gm : GameManager.t CycleGrid.t :=
    @GameManager.gameLoop _ (@CycleGridOps flat) 5016 (1 # 60) noPhase
                          (@clearedGame _ (@CycleGridOps flat) noPhase) in
  let gm' := @GameManager.restartGame _ (@CycleGridOps flat) noPhase gm in
  GameManager.spawnTimers gm' = [6516]
  /\ GameManager.alienGrid
       (@GameManager.spawnTimerTick _ (@CycleGridOps flat) 6516 noPhase gm')
     = CycleGrid.spawnWave noPhase 1 (GameManager.alienGrid gm').
Proof.
  cbv zeta.
  destruct (@restart_resets_all_but_pending_spawns _ (@CycleGridOps flat) noPhase
              (@GameManager.gameLoop _ (@CycleGridOps flat) 5016 (1 # 60) noPhase
                 (@clearedGame _ (@CycleGridOps flat) noPhase)))
    as (_ & _ & _ & _ & _ & _ & _ & _ & _ & Htimers & Hspawn).
  split.
  - rewrite Htimers. vm_compute. reflexivity.
  - apply (Hspawn 6516 [] 6516 noPhase); [vm_compute; reflexivity | lia].
Defined.

Lemma boundary_edge_and_ground_tests_witness :
  let g := boundaryWave1 noPhase in
  fst (@BoundaryGrid.update flat (1 # 60) g) = BoundaryGrid.hitGround g
  /\ (BoundaryGrid.hitGround g = true
      <-> exists a, In a (BoundaryGrid.getAliveAliens g)
                    /\ (BoundaryGrid.worldY g a <= -3)%Q).
Proof.
  cbv zeta.
  destruct (@boundary_edge_and_ground_tests flat (boundaryWave1 noPhase))
    as (_ & Hground & _ & Hupdate).
  split; [|exact Hground].
  apply (Hupdate (1 # 60) (Vector3.mk 0 0 0)); [reflexivity|].
  vm_compute. discriminate.
Defined.

Lemma update_keeps_or_raises_speed_witness :
  let g := boundaryWave1 noPhase in
  (BoundaryGrid.moveSpeed g
   <= BoundaryGrid.moveSpeed (snd (@BoundaryGrid.update flat (1 # 60) g)))%Q.
Proof.
  cbv zeta.
  destruct (@update_keeps_or_raises_speed flat (1 # 60)) as [HB _].
  apply HB. vm_compute. discriminate.
Defined.
